(** * libdns/domainnameshop: record codec, zone resolver, record cache
      and orchestrator, embedded from [models.go], [client.go] and
      [provider.go].

    Go values are modelled as follows.
    - [string] is a Stdlib [string] (a sequence of bytes);
    - [int] is [Z]; identifiers and TTLs are only compared, copied and
      tested against zero, so no wrap-around arises on them;
    - [time.Duration] is [Z] nanoseconds with the int64 wrap-around of
      its multiplication written out;
    - [map[string]T] is a [gmap string T] (a nil map and an empty map
      are indistinguishable for the reads and writes performed here);
    - a slice is a [list];
    - [(T, error)] results are a sum type, and the methods of [*Provider]
      are state-passing functions over the provider's caches, the remote
      world behind the HTTP transport and the trace of requests sent. *)

From Stdlib Require Import ZArith Ascii String DecimalString Lia.
From stdpp Require Import base option list strings gmap.

Local Open Scope string_scope.

(** ** Go's [strings] package *)

Module strings.

(** [s[i:j]] for [0 <= i <= j <= len(s)]. *)
Definition slice (s : string) (i j : nat) : string :=
  String.substring i (j - i) s.

(** [func HasSuffix(s, suffix string) bool] *)
Definition HasSuffix (s suffix : string) : bool :=
  (String.length suffix <=? String.length s)%nat
  && String.eqb
       (slice s (String.length s - String.length suffix) (String.length s))
       suffix.

(** [func TrimSuffix(s, suffix string) string] *)
Definition TrimSuffix (s suffix : string) : string :=
  if HasSuffix s suffix
  then slice s 0 (String.length s - String.length suffix)
  else s.

(** [func HasPrefix(s, prefix string) bool] *)
Definition HasPrefix (s prefix : string) : bool :=
  (String.length prefix <=? String.length s)%nat
  && String.eqb (slice s 0 (String.length prefix)) prefix.

(** [func TrimPrefix(s, prefix string) string] *)
Definition TrimPrefix (s prefix : string) : string :=
  if HasPrefix s prefix
  then slice s (String.length prefix) (String.length s)
  else s.

(** [IndexByte]: position of the first occurrence of [c], if any. *)
Fixpoint IndexByte (s : string) (c : ascii) : option nat :=
  match s with
  | EmptyString => None
  | String a s' =>
      if Ascii.eqb a c then Some 0%nat
      else match IndexByte s' c with
           | Some i => Some (S i)
           | None => None
           end
  end.

(** [func SplitN(s, sep string, n int) []string] for a one-byte
    separator and [n >= 0]: at most [n] pieces, the last one being the
    unsplit remainder. *)
Fixpoint SplitN (s : string) (sep : ascii) (n : nat) : list string :=
  match n with
  | O => []
  | S O => [s]
  | S n' =>
      match IndexByte s sep with
      | None => [s]
      | Some m =>
          slice s 0 m :: SplitN (slice s (m + 1) (String.length s)) sep n'
      end
  end.

End strings.

(** ** Go's [strconv] package *)

Module strconv.

Inductive NumError := ErrSyntax | ErrRange.

Definition digit_of (c : ascii) : option Z :=
  let n := nat_of_ascii c in
  if (48 <=? n)%nat && (n <=? 57)%nat then Some (Z.of_nat (n - 48)) else None.

(** The digit loop of [ParseUint(s, 10, bitSize)]: a byte that is not a
    decimal digit is a syntax error, a value above [maxVal] a range
    error, whichever comes first. *)
Fixpoint parse_loop (maxVal : Z) (s : string) (n : Z) : NumError + Z :=
  match s with
  | EmptyString => inr n
  | String c s' =>
      match digit_of c with
      | None => inl ErrSyntax
      | Some d =>
          let n1 := (n * 10 + d)%Z in
          if (maxVal <? n1)%Z then inl ErrRange else parse_loop maxVal s' n1
      end
  end.

(** [strconv.ParseUint(s, 10, 16)] *)
Definition ParseUint16 (s : string) : NumError + Z :=
  match s with
  | EmptyString => inl ErrSyntax
  | _ => parse_loop 65535 s 0
  end.

(** [strconv.Itoa] *)
Definition Itoa (z : Z) : string := NilZero.string_of_int (Z.to_int z).

End strconv.

(** ** [time.Duration] *)

Module time.

Definition Second : Z := 1000000000.

Definition wrap64 (z : Z) : Z :=
  ((z + 2 ^ 63) mod 2 ^ 64 - 2 ^ 63)%Z.

(** [time.Duration(n) * time.Second] *)
Definition of_seconds (n : Z) : Z := wrap64 (n * Second).

(** [int(d.Seconds())]: [Seconds] returns the float
    [float64(d / Second) + float64(d % Second) / 1e9], which [int]
    truncates toward zero.  The quotient below is that value whenever
    [d] is a whole number of seconds, where the float sum is exact.  On
    a duration with a fraction the float sum can round up to the next
    second where the quotient does not (16777216.999999999 s gives
    16777217 in Go and 16777216 here); what follows relies on the value
    only at whole seconds. *)
Definition whole_seconds (d : Z) : Z := Z.quot d Second.

End time.

(** ** Name canonicalization ([client.go]) *)

Definition removeFQDNTrailingDot (fqdn : string) : string :=
  strings.TrimSuffix fqdn ".".

Definition normalizeRecordName (recordName zone : string) : string :=
  let normalized := removeFQDNTrailingDot recordName in
  let normalized := strings.TrimSuffix normalized (removeFQDNTrailingDot zone) in
  let normalized := if String.eqb normalized "" then "@" else normalized in
  removeFQDNTrailingDot normalized.

(** The canonicalization rule as the specification words it: strip the
    trailing dot from name and zone; if the name ends with the zone (as
    a suffix), strip that suffix; if the remainder is empty, substitute
    "@"; strip any resulting trailing dot.  "Ends with" is read
    structurally: [chop s suf] finds the [pre] with [s = pre ++ suf]. *)
Fixpoint chop (s suf : string) : option string :=
  if String.eqb s suf then Some ""
  else match s with
       | EmptyString => None
       | String c s' =>
           match chop s' suf with
           | Some pre => Some (String c pre)
           | None => None
           end
       end.

Definition strip_if_ends_with (s suf : string) : string :=
  match chop s suf with
  | Some pre => pre
  | None => s
  end.

Definition normalize_spec (name zone : string) : string :=
  let n := strip_if_ends_with name "." in
  let z := strip_if_ends_with zone "." in
  let rest := strip_if_ends_with n z in
  let rest := match rest with EmptyString => "@" | _ => rest end in
  strip_if_ends_with rest ".".

(** ** libdns record kinds (external package [github.com/libdns/libdns])

    The program builds and inspects three kinds of [libdns.Record]:
    the flat [RR], [MX] and [SRV].  Every other typed kind ([Address],
    [TXT], [CNAME], ...) is only ever observed through its [RR()] view,
    so it is carried as that view under [RecTyped].  The flattening
    formats of [MX.RR] and [SRV.RR] are those of libdns v1. *)

Module libdns.

Record RR := mkRR {
  RR_Name : string;
  RR_TTL : Z;
  RR_Type : string;
  RR_Data : string }.

Record MX := mkMX {
  MX_Name : string;
  MX_TTL : Z;
  MX_Preference : Z;
  MX_Target : string }.

Record SRV := mkSRV {
  SRV_Service : string;
  SRV_Transport : string;
  SRV_Name : string;
  SRV_TTL : Z;
  SRV_Priority : Z;
  SRV_Weight : Z;
  SRV_Port : Z;
  SRV_Target : string }.

Inductive Record :=
| RecRR (r : RR)
| RecMX (m : MX)
| RecSRV (s : SRV)
| RecTyped (view : RR).

(** [func (m MX) RR() RR]: data is ["%d %s"] of preference and target. *)
Definition MX_RR (m : MX) : RR :=
  {| RR_Name := MX_Name m;
     RR_TTL := MX_TTL m;
     RR_Type := "MX";
     RR_Data := strconv.Itoa (MX_Preference m) ++ " " ++ MX_Target m |}.

(** [func (s SRV) RR() RR]: the name is ["_%s._%s.%s"] of service,
    transport and name, the data ["%d %d %d %s"] of priority, weight,
    port and target. *)
Definition SRV_RR (s : SRV) : RR :=
  {| RR_Name := "_" ++ SRV_Service s ++ "._" ++ SRV_Transport s ++ "."
                ++ SRV_Name s;
     RR_TTL := SRV_TTL s;
     RR_Type := "SRV";
     RR_Data := strconv.Itoa (SRV_Priority s) ++ " "
                ++ strconv.Itoa (SRV_Weight s) ++ " "
                ++ strconv.Itoa (SRV_Port s) ++ " " ++ SRV_Target s |}.

(** The [RR()] method of the [Record] interface. *)
Definition to_RR (r : Record) : RR :=
  match r with
  | RecRR r => r
  | RecMX m => MX_RR m
  | RecSRV s => SRV_RR s
  | RecTyped v => v
  end.

End libdns.

(** ** Errors *)

Inductive error :=
| ErrTransport (msg : string)
| ErrZoneCount (n : nat) (zone : string)
| ErrInvalidPriority (raw : string) (e : strconv.NumError)
| ErrInvalidWeight (raw : string) (e : strconv.NumError)
| ErrInvalidPort (raw : string) (e : strconv.NumError)
| ErrSRVName (host : string)
| ErrRRParse (msg : string)
| ErrParsingRecord (inner : error).

Definition result (A : Type) : Type := error + A.

(** ** Data model ([models.go]) *)

(** [dsZone]: the name and the identifier; the registration metadata
    (expiry, nameservers, registrant, services, ...) is decoded but never
    read. *)
Record dsZone := mkZone {
  zName : string;
  zID : Z }.

Record dsDNSRecord := mkRec {
  ID : Z;
  Host : string;
  Data : string;
  Type_ : string;
  TTL : Z;
  Priority : string;
  Weight : string;
  Port : string }.

(** [dsDNSRecord{}] *)
Definition emptyRecord : dsDNSRecord := mkRec 0 "" "" "" 0 "" "" "".

#[global] Instance dsDNSRecord_eq_dec : EqDecision dsDNSRecord.
Proof. solve_decision. Defined.

#[global] Instance dsZone_eq_dec : EqDecision dsZone.
Proof. solve_decision. Defined.

Definition set_ID (r : dsDNSRecord) (i : Z) : dsDNSRecord :=
  mkRec i (Host r) (Data r) (Type_ r) (TTL r) (Priority r) (Weight r) (Port r).
Definition set_Host (r : dsDNSRecord) (h : string) : dsDNSRecord :=
  mkRec (ID r) h (Data r) (Type_ r) (TTL r) (Priority r) (Weight r) (Port r).
Definition set_Data (r : dsDNSRecord) (d : string) : dsDNSRecord :=
  mkRec (ID r) (Host r) d (Type_ r) (TTL r) (Priority r) (Weight r) (Port r).
Definition set_TTL (r : dsDNSRecord) (t : Z) : dsDNSRecord :=
  mkRec (ID r) (Host r) (Data r) (Type_ r) t (Priority r) (Weight r) (Port r).
Definition set_Priority (r : dsDNSRecord) (p : string) : dsDNSRecord :=
  mkRec (ID r) (Host r) (Data r) (Type_ r) (TTL r) p (Weight r) (Port r).
Definition set_Weight (r : dsDNSRecord) (w : string) : dsDNSRecord :=
  mkRec (ID r) (Host r) (Data r) (Type_ r) (TTL r) (Priority r) w (Port r).
Definition set_Port (r : dsDNSRecord) (p : string) : dsDNSRecord :=
  mkRec (ID r) (Host r) (Data r) (Type_ r) (TTL r) (Priority r) (Weight r) p.

(** ** Record codec ([models.go]) *)

Section Codec.

(** [libdns.RR.Parse], the external parser the fallback branch
    delegates to. *)
Variable RR_Parse : libdns.RR -> result libdns.Record.

(** [func (r dsDNSRecord) libdnsRecord() (libdns.Record, error)] *)
Definition libdnsRecord (r : dsDNSRecord) : result libdns.Record :=
  if String.eqb (Type_ r) "MX" then
    match strconv.ParseUint16 (Priority r) with
    | inl e => inl (ErrInvalidPriority (Priority r) e)
    | inr priority =>
        inr (libdns.RecMX
               {| libdns.MX_Name := Host r;
                  libdns.MX_TTL := time.of_seconds (TTL r);
                  libdns.MX_Preference := priority;
                  libdns.MX_Target := Data r |})
    end
  else if String.eqb (Type_ r) "SRV" then
    match strconv.ParseUint16 (Priority r) with
    | inl e => inl (ErrInvalidPriority (Priority r) e)
    | inr priority =>
    match strconv.ParseUint16 (Weight r) with
    | inl e => inl (ErrInvalidWeight (Weight r) e)
    | inr weight =>
    match strconv.ParseUint16 (Port r) with
    | inl e => inl (ErrInvalidPort (Port r) e)
    | inr port =>
    match strings.SplitN (Host r) "." 2 with
    | part0 :: part1 :: _ =>
        inr (libdns.RecSRV
               {| libdns.SRV_Service := strings.TrimPrefix part0 "_";
                  libdns.SRV_Transport := strings.TrimPrefix part1 "_";
                  libdns.SRV_Name := Host r;
                  libdns.SRV_TTL := time.of_seconds (TTL r);
                  libdns.SRV_Priority := priority;
                  libdns.SRV_Weight := weight;
                  libdns.SRV_Port := port;
                  libdns.SRV_Target := Data r |})
    | _ => inl (ErrSRVName (Host r))
    end end end end
  else
    RR_Parse
      {| libdns.RR_Name := Host r;
         libdns.RR_TTL := time.of_seconds (TTL r);
         libdns.RR_Type := Type_ r;
         libdns.RR_Data := Data r |}.

End Codec.

(** [func libdnsRecordTodsDNSRecord(r libdns.Record) (dsDNSRecord, error)] *)
Definition libdnsRecordTodsDNSRecord (r : libdns.Record) : result dsDNSRecord :=
  let rr := libdns.to_RR r in
  let dsRecord :=
    {| ID := 0;
       Host := libdns.RR_Name rr;
       TTL := time.whole_seconds (libdns.RR_TTL rr);
       Type_ := libdns.RR_Type rr;
       Data := libdns.RR_Data rr;
       Priority := ""; Weight := ""; Port := "" |} in
  match r with
  | libdns.RecMX rec =>
      inr (set_Priority dsRecord (strconv.Itoa (libdns.MX_Preference rec)))
  | libdns.RecSRV rec =>
      let dsRecord := set_Priority dsRecord (strconv.Itoa (libdns.SRV_Priority rec)) in
      let dsRecord := set_Port dsRecord (strconv.Itoa (libdns.SRV_Port rec)) in
      let dsRecord := set_Weight dsRecord (strconv.Itoa (libdns.SRV_Weight rec)) in
      inr (set_Data dsRecord (libdns.SRV_Target rec))
  | _ => inr dsRecord
  end.

(** ** Transport (external collaborator)

    A request carries what the program puts in its method, URL and JSON
    body; its index is the Go type the response body is decoded into.
    The domain of [GetDomains] is the value handed to [url.QueryEscape]. *)

Inductive Request : Type -> Type :=
| GetDomains (domain : string) : Request (list dsZone)
| GetDNS (zoneID : Z) : Request (list dsDNSRecord)
| PostCreate (zoneID : Z) (body : dsDNSRecord) : Request dsDNSRecord
| PostUpdate (zoneID recordID : Z) (body : dsDNSRecord) : Request dsDNSRecord
| DeleteDNS (zoneID recordID : Z) : Request unit.

Inductive Method := GET | POST | DELETE.

Definition method_of {T} (r : Request T) : Method :=
  match r with
  | GetDomains _ | GetDNS _ => GET
  | PostCreate _ _ | PostUpdate _ _ _ => POST
  | DeleteDNS _ _ => DELETE
  end.

(** One entry of the trace of requests handed to the transport. *)
Inductive Call : Type :=
| call : forall T : Type, Request T -> Call.

Arguments call {T} r.

Definition call_method (c : Call) : Method :=
  match c with call r => method_of r end.

Definition is_delete (c : Call) : bool :=
  match call_method c with DELETE => true | _ => false end.

(** ** Provider state ([provider.go]) *)

Record Provider := mkProvider {
  APIToken : string;
  APISecret : string;
  zones : gmap string dsZone;
  knownRecords : gmap string (list dsDNSRecord) }.

Definition set_zones (p : Provider) (z : gmap string dsZone) : Provider :=
  mkProvider (APIToken p) (APISecret p) z (knownRecords p).
Definition set_knownRecords (p : Provider)
    (k : gmap string (list dsDNSRecord)) : Provider :=
  mkProvider (APIToken p) (APISecret p) (zones p) k.

(** [defaultTtl.Seconds()] as an [int] *)
Definition defaultTtl : Z := 120.

(** ** Record cache: the two loops over a zone's cached slice *)

(** The [for _, rec := range zoneRecords] loop of
    [getRecordFromKnownRecords]. *)
Fixpoint getRecordFromKnownRecords_loop
    (record : dsDNSRecord) (zoneRecords : list dsDNSRecord) : dsDNSRecord :=
  match zoneRecords with
  | [] => emptyRecord
  | rec :: rest =>
      if (ID record =? ID rec)%Z && negb (ID record =? 0)%Z
         && negb (ID rec =? 0)%Z
      then rec
      else if String.eqb (Host record) (Host rec)
              && String.eqb (Data record) (Data rec)
              && negb (ID rec =? 0)%Z
      then rec
      else getRecordFromKnownRecords_loop record rest
  end.

(** The [for i, rec := range zoneRecords] loop of
    [removeRecordFromKnownRecords]: the index at which it stops. *)
Fixpoint removeRecordFromKnownRecords_loop
    (record : dsDNSRecord) (zoneRecords : list dsDNSRecord) : option nat :=
  match zoneRecords with
  | [] => None
  | rec :: rest =>
      if (ID record =? ID rec)%Z && negb (ID record =? 0)%Z
      then Some 0%nat
      else S <$> removeRecordFromKnownRecords_loop record rest
  end.

(** The two conditions under which the lookup loop returns [rec]. *)
Definition matches_by_id (record rec : dsDNSRecord) : bool :=
  (ID record =? ID rec)%Z && negb (ID record =? 0)%Z && negb (ID rec =? 0)%Z.

Definition matches_by_host_data (record rec : dsDNSRecord) : bool :=
  String.eqb (Host record) (Host rec) && String.eqb (Data record) (Data rec)
  && negb (ID rec =? 0)%Z.

Definition matches (record rec : dsDNSRecord) : bool :=
  matches_by_id record rec || matches_by_host_data record rec.

Section Client.

Variable World : Type.

(** [doRequest] up to decoding: the remote end answers a request with a
    decoded body or a failure, and moves to a new state. *)
Variable transport :
  forall T, string -> string -> Request T -> World -> result T * World.

Record State := mkState {
  prov : Provider;
  world : World;
  trace : list Call }.

(** A method of [*Provider]: may fail, and changes the state either way. *)
Definition M (A : Type) : Type := State -> result A * State.

Definition ret {A} (a : A) : M A := fun st => (inr a, st).
Definition fail {A} (e : error) : M A := fun st => (inl e, st).
Definition bind {A B} (m : M A) (k : A -> M B) : M B :=
  fun st =>
    match m st with
    | (inr a, st') => k a st'
    | (inl e, st') => (inl e, st')
    end.
Definition gets {A} (f : Provider -> A) : M A :=
  fun st => (inr (f (prov st)), st).
Definition modify (f : Provider -> Provider) : M unit :=
  fun st => (inr tt, mkState (f (prov st)) (world st) (trace st)).
Definition lift {A} (r : result A) : M A := fun st => (r, st).

Notation "'let*' x ':=' m 'in' k" := (bind m (fun x => k))
  (at level 10, x name, m at level 100, k at level 200).

(** The state once a request has been answered with world [w]. *)
Definition after_call {T} (st : State) (r : Request T) (w : World) : State :=
  mkState (prov st) w (trace st ++ [call r]).

(** [func (p *Provider) doRequest(token, secret, request, result) error] *)
Definition doRequest {T} (token secret : string) (request : Request T) : M T :=
  fun st =>
    let (r, w) := transport T token secret request (world st) in
    (r, after_call st request w).

(** [func (p *Provider) getDomainInfo(ctx, token, secret, zone) (dsZone, error)] *)
Definition getDomainInfo (token secret zone : string) : M dsZone :=
  let* cached := gets (fun p => zones p !! zone) in
  match cached with
  | Some z => ret z
  | None =>
      let* zs := doRequest token secret
              (GetDomains (removeFQDNTrailingDot zone)) in
      match zs with
      | [z] =>
          let* _ := modify (fun p => set_zones p (<[zone := z]> (zones p))) in
          ret z
      | _ => fail (ErrZoneCount (length zs) zone)
      end
  end.

(** [func (p *Provider) getAllDomainRecords(ctx, token, secret, zone) ([]dsDNSRecord, error)] *)
Definition getAllDomainRecords (token secret zone : string)
    : M (list dsDNSRecord) :=
  let* domain := getDomainInfo token secret zone in
  let* res := doRequest token secret (GetDNS (zID domain)) in
  let* _ := modify (fun p =>
         set_knownRecords p (<[zone := res]> (knownRecords p))) in
  ret res.

(** [func (p *Provider) getRecordFromKnownRecords(record, zone) dsDNSRecord] *)
Definition getRecordFromKnownRecords (record : dsDNSRecord) (zone : string)
    (p : Provider) : dsDNSRecord :=
  match knownRecords p !! zone with
  | Some zoneRecords => getRecordFromKnownRecords_loop record zoneRecords
  | None => emptyRecord
  end.

(** [func (p *Provider) removeRecordFromKnownRecords(record, zone) bool]:
    the provider after the call, and the boolean returned. *)
Definition removeRecordFromKnownRecords (record : dsDNSRecord)
    (zone : string) (p : Provider) : Provider * bool :=
  match knownRecords p !! zone with
  | Some zoneRecords =>
      match removeRecordFromKnownRecords_loop record zoneRecords with
      | Some i =>
          (set_knownRecords p
             (<[zone := alter (fun r => set_ID r 0) i zoneRecords]>
                (knownRecords p)),
           true)
      | None => (p, false)
      end
  | None => (p, false)
  end.

(** [func (p *Provider) getDNSRecord(ctx, token, secret, zone, record) (dsDNSRecord, error)] *)
Definition getDNSRecord (token secret zone : string) (record : dsDNSRecord)
    : M dsDNSRecord :=
  let* dsrecord := gets (getRecordFromKnownRecords record zone) in
  if decide (emptyRecord = dsrecord) then
    let* _ := getAllDomainRecords token secret zone in
    gets (getRecordFromKnownRecords record zone)
  else ret dsrecord.

(** [func (p *Provider) deleteDNSRecord(ctx, token, secret, zone, record) error] *)
Definition deleteDNSRecord (token secret zone : string)
    (record : dsDNSRecord) : M unit :=
  let* domain := getDomainInfo token secret zone in
  let* dsrecord := getDNSRecord token secret zone record in
  if decide (emptyRecord = dsrecord) then ret tt
  else
    let* _ := doRequest token secret (DeleteDNS (zID domain) (ID dsrecord)) in
    let* _ := modify (fun p => fst (removeRecordFromKnownRecords dsrecord zone p)) in
    ret tt.

(** The request body of create and update: the record with the default
    time-to-live substituted for zero. *)
Definition reqData (record : dsDNSRecord) : dsDNSRecord :=
  if (TTL record =? 0)%Z then set_TTL record defaultTtl else record.

(** [func (p *Provider) createDNSRecord(ctx, token, secret, zone, record) (dsDNSRecord, error)] *)
Definition createDNSRecord (token secret zone : string)
    (record : dsDNSRecord) : M dsDNSRecord :=
  let* domain := getDomainInfo token secret zone in
  let record := set_Host record (normalizeRecordName (Host record) zone) in
  let* res := doRequest token secret (PostCreate (zID domain) (reqData record)) in
  ret (set_ID record (ID res)).

(** [func (p *Provider) updateDNSRecord(ctx, token, secret, zone, record) (dsDNSRecord, error)] *)
Definition updateDNSRecord (token secret zone : string)
    (record : dsDNSRecord) : M dsDNSRecord :=
  let* domain := getDomainInfo token secret zone in
  let* _ := doRequest token secret
         (PostUpdate (zID domain) (ID record) (reqData record)) in
  getDNSRecord token secret zone record.

(** [func (p *Provider) createOrUpdateDNSRecord(ctx, token, secret, zone, r) (dsDNSRecord, error)] *)
Definition createOrUpdateDNSRecord (token secret zone : string)
    (r : dsDNSRecord) : M dsDNSRecord :=
  if (ID r =? 0)%Z then createDNSRecord token secret zone r
  else updateDNSRecord token secret zone r.

(** *** The four public operations ([provider.go]) *)

Variable RR_Parse : libdns.RR -> result libdns.Record.

(** The conversion loop shared by [GetRecords] and [SetRecords]. *)
Fixpoint parse_all (recs : list dsDNSRecord) : result (list libdns.Record) :=
  match recs with
  | [] => inr []
  | rec :: rest =>
      match libdnsRecord RR_Parse rec with
      | inl e => inl (ErrParsingRecord e)
      | inr r =>
          match parse_all rest with
          | inl e => inl e
          | inr rs => inr (r :: rs)
          end
      end
  end.

Definition with_credentials {A} (f : string -> string -> M A) : M A :=
  let* token := gets APIToken in let* secret := gets APISecret in f token secret.

(** [func (p *Provider) GetRecords(ctx, zone) ([]libdns.Record, error)] *)
Definition GetRecords (zone : string) : M (list libdns.Record) :=
  let* zoneinfo := with_credentials (fun t s => getAllDomainRecords t s zone) in
  lift (parse_all zoneinfo).

(** [func (p *Provider) AppendRecords(ctx, zone, records) ([]libdns.Record, error)] *)
Fixpoint AppendRecords (zone : string) (records : list libdns.Record)
    : M (list libdns.Record) :=
  match records with
  | [] => ret []
  | rec :: rest =>
      let* dsrr := lift (libdnsRecordTodsDNSRecord rec) in
      let* res := with_credentials (fun t s => createDNSRecord t s zone dsrr) in
      let* libdnsRec := lift (match libdnsRecord RR_Parse res with
                         | inl e => inl (ErrParsingRecord e)
                         | inr r => inr r
                         end) in
      let* created := AppendRecords zone rest in
      ret (libdnsRec :: created)
  end.

(** The loop of [DeleteRecords]. *)
Fixpoint DeleteRecords_loop (zone : string) (records : list libdns.Record)
    : M unit :=
  match records with
  | [] => ret tt
  | record :: rest =>
      let* dsrr := lift (libdnsRecordTodsDNSRecord record) in
      let* _ := with_credentials (fun t s => deleteDNSRecord t s zone dsrr) in
      DeleteRecords_loop zone rest
  end.

(** [func (p *Provider) DeleteRecords(ctx, zone, records) ([]libdns.Record, error)] *)
Definition DeleteRecords (zone : string) (records : list libdns.Record)
    : M (list libdns.Record) :=
  let* _ := DeleteRecords_loop zone records in
  ret records.

(** The first loop of [SetRecords]. *)
Fixpoint SetRecords_loop (zone : string) (records : list libdns.Record)
    : M (list dsDNSRecord) :=
  match records with
  | [] => ret []
  | record :: rest =>
      let* dsrr := lift (libdnsRecordTodsDNSRecord record) in
      let* newRecord := with_credentials
                     (fun t s => createOrUpdateDNSRecord t s zone dsrr) in
      let* appended := SetRecords_loop zone rest in
      ret (newRecord :: appended)
  end.

(** [func (p *Provider) SetRecords(ctx, zone, records) ([]libdns.Record, error)] *)
Definition SetRecords (zone : string) (records : list libdns.Record)
    : M (list libdns.Record) :=
  let* appendedRecords := SetRecords_loop zone records in
  lift (parse_all appendedRecords).

End Client.

Arguments mkState {World} _ _ _.
Arguments prov {World} _.
Arguments world {World} _.
Arguments trace {World} _.
Arguments after_call {World T} _ _ _.

(** ** Sequences of public operations

    An instance's history is a sequence of calls of its four public
    methods; [run_ops] keeps the state each call leaves behind, whether
    or not the call succeeded. *)

Inductive op :=
| OpGetRecords (zone : string)
| OpAppendRecords (zone : string) (records : list libdns.Record)
| OpDeleteRecords (zone : string) (records : list libdns.Record)
| OpSetRecords (zone : string) (records : list libdns.Record).

Section History.

Variable World : Type.
Variable transport :
  forall T, string -> string -> Request T -> World -> result T * World.
Variable RR_Parse : libdns.RR -> result libdns.Record.

Definition run_op (o : op) (st : State World) : State World :=
  match o with
  | OpGetRecords zone => snd (GetRecords World transport RR_Parse zone st)
  | OpAppendRecords zone rs =>
      snd (AppendRecords World transport RR_Parse zone rs st)
  | OpDeleteRecords zone rs => snd (DeleteRecords World transport zone rs st)
  | OpSetRecords zone rs =>
      snd (SetRecords World transport RR_Parse zone rs st)
  end.

Definition run_ops (os : list op) (st : State World) : State World :=
  foldl (fun s o => run_op o s) st os.

(** A property of the provider's caches that a method never breaks,
    whether it succeeds or fails. *)
Definition keeps (P : Provider -> Prop) {A : Type} (m : M World A) : Prop :=
  forall st : State World, P (prov st) -> P (prov (snd (m st))).

End History.

(** ** A reference remote end

    A small in-memory stand-in for the provider's API, used to run the
    client on concrete inputs: zones are looked up by name, records are
    kept per zone identifier, create assigns the next free identifier and
    echoes the stored record, update replaces the stored record. *)

Module RefServer.

Record World := mkWorld {
  srv_zones : list dsZone;
  srv_records : list (Z * dsDNSRecord);
  srv_next : Z }.

Definition in_zone (zid : Z) (e : Z * dsDNSRecord) : bool := (fst e =? zid)%Z.
Definition is_record (zid rid : Z) (e : Z * dsDNSRecord) : bool :=
  (fst e =? zid)%Z && (ID (snd e) =? rid)%Z.

Definition transport (T : Type) (token secret : string) (r : Request T)
    (w : World) : result T * World :=
  match r in Request T return result T * World with
  | GetDomains d =>
      (inr (filter (fun z => zName z = d) (srv_zones w)), w)
  | GetDNS zid =>
      (inr (snd <$> List.filter (in_zone zid) (srv_records w)), w)
  | PostCreate zid body =>
      let stored := set_ID body (srv_next w) in
      (inr stored,
       mkWorld (srv_zones w) (srv_records w ++ [(zid, stored)])
               (srv_next w + 1))
  | PostUpdate zid rid body =>
      if existsb (is_record zid rid) (srv_records w) then
        let stored := set_ID body rid in
        (inr stored,
         mkWorld (srv_zones w)
           (map (fun e => if is_record zid rid e then (zid, stored) else e)
                (srv_records w))
           (srv_next w))
      else (inl (ErrTransport "HTTP 404"), w)
  | DeleteDNS zid rid =>
      if existsb (is_record zid rid) (srv_records w) then
        (inr tt,
         mkWorld (srv_zones w)
           (List.filter (fun e => negb (is_record zid rid e)) (srv_records w))
           (srv_next w))
      else (inl (ErrTransport "HTTP 404"), w)
  end.

(** A parser that keeps every flat record flat, as [RR.Parse] does for
    a type it has no struct for. *)
Definition parse_flat (r : libdns.RR) : result libdns.Record :=
  inr (libdns.RecRR r).

Definition example_zone : dsZone := mkZone "example.com" 1.

Definition txt (id : Z) (host data : string) : dsDNSRecord :=
  mkRec id host data "TXT" 120 "" "" "".

(** One zone holding one text record with identifier 7. *)
Definition world0 : World :=
  mkWorld [example_zone] [(1%Z, txt 7 "test1" "test1")] 8.

Definition provider0 : Provider := mkProvider "token" "secret" ∅ ∅.

Definition state0 : State World := mkState provider0 world0 [].

(** The state after one [GetRecords]: zone resolved, snapshot cached. *)
Definition state1 : State World :=
  run_op World transport parse_flat (OpGetRecords "example.com") state0.

End RefServer.

(** ** Codec round trip and sample records *)

(** Provider form and back: [libdnsRecordTodsDNSRecord] then
    [libdnsRecord]. *)
Definition roundtrip (RR_Parse : libdns.RR -> result libdns.Record)
    (r : libdns.Record) : result libdns.Record :=
  match libdnsRecordTodsDNSRecord r with
  | inl e => inl e
  | inr d => libdnsRecord RR_Parse d
  end.

(** The kinds the codec has no branch for: the flat record and every
    typed kind other than [MX] and [SRV]. *)
Definition fallback_kind (r : libdns.Record) : bool :=
  match r with
  | libdns.RecRR _ | libdns.RecTyped _ => true
  | libdns.RecMX _ | libdns.RecSRV _ => false
  end.

Module Samples.

(** A parser shaped like [libdns.RR.Parse] on well-formed data: a typed
    record for the types libdns has a struct for, the flat record for
    any other type. *)
Definition parse_known (r : libdns.RR) : result libdns.Record :=
  if existsb (String.eqb (libdns.RR_Type r))
       ["A"; "AAAA"; "CAA"; "CNAME"; "HTTPS"; "SVCB"; "MX"; "NS"; "SRV";
        "TXT"]
  then inr (libdns.RecTyped r)
  else inr (libdns.RecRR r).

(** A text record as libdns types it, and a flat record of a type libdns
    has no struct for. *)
Definition txt_typed : libdns.Record :=
  libdns.RecTyped (libdns.mkRR "test1" (120 * time.Second) "TXT" "test1").

Definition spf_flat : libdns.Record :=
  libdns.RecRR
    (libdns.mkRR "@" (3600 * time.Second) "SPF" "v=spf1 -all").

(** The provider record of a SIP service published under the zone name. *)
Definition sip_record : dsDNSRecord :=
  mkRec 0 "_sip._tcp.example.com" "sip.example.com." "SRV" 3600
        "10" "5" "5060".

(** The same service addressed relative to the zone. *)
Definition sip_relative : dsDNSRecord :=
  mkRec 0 "_sip._tcp" "sip.example.com." "SRV" 3600 "10" "5" "5060".

(** A mail exchanger at the zone apex, five minutes of time-to-live. *)
Definition mx_apex : libdns.MX :=
  libdns.mkMX "@" (300 * time.Second) 10 "mail.example.com.".

(** The SIP service of zone example.com as a generic record. *)
Definition srv_sip : libdns.SRV :=
  libdns.mkSRV "sip" "tcp" "example.com" (3600 * time.Second) 10 5 5060
    "sip.example.com.".

(** A flat record of a type the codec has no special case for. *)
Definition txt_flat : libdns.RR :=
  libdns.mkRR "test1" (120 * time.Second) "TXT" "test1".

(** A candidate with identifier 7, a cached entry that shares only its
    host and data, and a cached entry that shares only its identifier. *)
Definition candidate : dsDNSRecord := RefServer.txt 7 "www" "192.0.2.1".
Definition same_host_data : dsDNSRecord := RefServer.txt 5 "www" "192.0.2.1".
Definition same_id : dsDNSRecord := RefServer.txt 7 "ftp" "192.0.2.9".

Definition cache_host_data_first : Provider :=
  mkProvider "token" "secret" ∅
    {[ "example.com" := [same_host_data; same_id] ]}.

End Samples.

(** ** Sample runs against the reference remote end *)

Module Runs.

Definition zone : string := "example.com".

(** The cached record 7 with a new data value, as an update would
    carry it. *)
Definition modified : dsDNSRecord := RefServer.txt 7 "test1" "new_value".




(** A record that was never created. *)
Definition ghost : dsDNSRecord := RefServer.txt 0 "ghost" "nothing".

(** A record to create, absolute name and no time-to-live. *)
Definition fresh : dsDNSRecord :=
  mkRec 0 "www.example.com." "192.0.2.1" "A" 0 "" "" "".

(** A mail-exchange record whose priority is not a number, and a remote
    end that serves it after a good record. *)
Definition bad_mx : dsDNSRecord :=
  mkRec 9 "mail" "mx.example.com." "MX" 3600 "high" "" "".

Definition world_bad : RefServer.World :=
  RefServer.mkWorld [RefServer.example_zone]
    [(1%Z, RefServer.txt 7 "test1" "test1"); (1%Z, bad_mx)] 10.

Definition state_bad : State RefServer.World :=
  mkState RefServer.provider0 world_bad [].

(** Two flat records to append. *)
Definition to_append : list libdns.Record :=
  [libdns.RecRR (libdns.mkRR "a" (120 * time.Second) "TXT" "1");
   libdns.RecRR (libdns.mkRR "b" (120 * time.Second) "TXT" "2")].

End Runs.

(** ** Observations on the trace of requests *)

Definition is_get (c : Call) : bool :=
  match call_method c with GET => true | _ => false end.

Definition is_create (c : Call) : bool :=
  match c with
  | call r => match r with PostCreate _ _ => true | _ => false end
  end.

Definition is_update (c : Call) : bool :=
  match c with
  | call r => match r with PostUpdate _ _ _ => true | _ => false end
  end.

(** A create or update whose body carries a time-to-live; true of every
    other request. *)
Definition body_has_ttl (c : Call) : bool :=
  match c with
  | call r =>
      match r with
      | PostCreate _ body => negb (TTL body =? 0)%Z
      | PostUpdate _ _ body => negb (TTL body =? 0)%Z
      | _ => true
      end
  end.

Section Observations.

Variable World : Type.

(** Whatever the outcome, a method only adds requests to the trace, and
    every request it adds satisfies [Q]. *)
Definition emits (Q : Call -> bool) {A : Type} (m : M World A) : Prop :=
  forall st : State World,
    exists calls : list Call,
      trace (snd (m st)) = (trace st ++ calls)%list
      /\ forallb Q calls = true.

End Observations.

(** The zone a public operation is called on. *)
Definition op_zone (o : op) : string :=
  match o with
  | OpGetRecords zone => zone
  | OpAppendRecords zone _ => zone
  | OpDeleteRecords zone _ => zone
  | OpSetRecords zone _ => zone
  end.

(** * Properties *)

(** ** Strings *)

Section StringFacts.

Lemma app_cons (c : ascii) (a b : string) :
  String c a ++ b = String c (a ++ b).
Proof. reflexivity. Qed.

Lemma app_nil (b : string) : "" ++ b = b.
Proof. reflexivity. Qed.

Lemma length_app (a b : string) :
  String.length (a ++ b) = (String.length a + String.length b)%nat.
Proof. induction a as [|c a IH]; simpl; [reflexivity | now rewrite IH]. Qed.

Lemma substring_all (s : string) :
  String.substring 0 (String.length s) s = s.
Proof. induction s as [|c s IH]; simpl; [reflexivity | now rewrite IH]. Qed.

Lemma substring_app_l (a b : string) :
  String.substring 0 (String.length a) (a ++ b) = a.
Proof.
  induction a as [|c a IH]; simpl.
  - now destruct b.
  - now rewrite IH.
Qed.

Lemma substring_app_r (a b : string) :
  String.substring (String.length a) (String.length b) (a ++ b) = b.
Proof. induction a as [|c a IH]; simpl; [apply substring_all | exact IH]. Qed.

Lemma substring_split (s : string) (n : nat) :
  (n <= String.length s)%nat ->
  s = String.substring 0 n s
      ++ String.substring n (String.length s - n) s.
Proof.
  revert n; induction s as [|c s IH]; intros n Hn; simpl in *.
  - now destruct n.
  - destruct n as [|n]; simpl.
    + now rewrite app_nil, substring_all.
    + rewrite app_cons. f_equal. apply IH. lia.
Qed.

Lemma app_length_inv (a b : string) : a ++ b = b -> a = "".
Proof.
  intros H. apply (f_equal String.length) in H. rewrite length_app in H.
  destruct a; [reflexivity | simpl in H; lia].
Qed.

Lemma HasSuffix_app (pre suf : string) :
  strings.HasSuffix (pre ++ suf) suf = true.
Proof.
  unfold strings.HasSuffix, strings.slice. rewrite length_app.
  apply andb_true_iff; split.
  - apply Nat.leb_le; lia.
  - replace (String.length pre + String.length suf - String.length suf)%nat
      with (String.length pre) by lia.
    replace (String.length pre + String.length suf - String.length pre)%nat
      with (String.length suf) by lia.
    rewrite substring_app_r. apply String.eqb_refl.
Qed.

Lemma HasSuffix_inv (s suf : string) :
  strings.HasSuffix s suf = true ->
  s = strings.slice s 0 (String.length s - String.length suf) ++ suf.
Proof.
  unfold strings.HasSuffix, strings.slice. intros H.
  apply andb_true_iff in H as [Hlen Heq].
  apply Nat.leb_le in Hlen. apply String.eqb_eq in Heq.
  rewrite Nat.sub_0_r.
  pose proof (substring_split s (String.length s - String.length suf))
    as Hs.
  rewrite Heq in Hs. apply Hs. lia.
Qed.

Lemma TrimSuffix_app (pre suf : string) :
  strings.TrimSuffix (pre ++ suf) suf = pre.
Proof.
  unfold strings.TrimSuffix. rewrite HasSuffix_app.
  unfold strings.slice. rewrite length_app.
  replace (String.length pre + String.length suf - String.length suf - 0)%nat
    with (String.length pre) by lia.
  apply substring_app_l.
Qed.

Lemma TrimSuffix_no (s suf : string) :
  strings.HasSuffix s suf = false -> strings.TrimSuffix s suf = s.
Proof. unfold strings.TrimSuffix. now intros ->. Qed.

Lemma chop_cons (c : ascii) (s suf : string) :
  chop (String c s) suf
  = if String.eqb (String c s) suf then Some ""
    else match chop s suf with
         | Some p => Some (String c p)
         | None => None
         end.
Proof. reflexivity. Qed.

Lemma chop_app (pre suf : string) : chop (pre ++ suf) suf = Some pre.
Proof.
  induction pre as [|c pre IH].
  - rewrite app_nil. destruct suf as [|a suf]; [reflexivity|].
    rewrite chop_cons. now rewrite String.eqb_refl.
  - rewrite app_cons, chop_cons.
    destruct (String.eqb_spec (String c (pre ++ suf)) suf) as [E|_].
    + rewrite <- app_cons in E. apply app_length_inv in E. discriminate.
    + now rewrite IH.
Qed.

Lemma chop_sound (s suf pre : string) :
  chop s suf = Some pre -> s = pre ++ suf.
Proof.
  revert pre; induction s as [|c s IH]; intros pre.
  - simpl. destruct suf; [intros [= <-]; reflexivity | discriminate].
  - rewrite chop_cons.
    destruct (String.eqb_spec (String c s) suf) as [E|N].
    + intros [= <-]. now rewrite app_nil.
    + destruct (chop s suf) as [p|] eqn:Ep; [|discriminate].
      intros [= <-]. rewrite app_cons. f_equal. now apply IH.
Qed.

(** Go's [TrimSuffix] strips exactly when the string ends with the
    suffix in the structural sense. *)
Lemma TrimSuffix_chop (s suf : string) :
  strings.TrimSuffix s suf = strip_if_ends_with s suf.
Proof.
  unfold strip_if_ends_with.
  destruct (chop s suf) as [pre|] eqn:E.
  - apply chop_sound in E. subst s. apply TrimSuffix_app.
  - destruct (strings.HasSuffix s suf) eqn:H.
    + apply HasSuffix_inv in H. rewrite H, chop_app in E. discriminate.
    + now apply TrimSuffix_no.
Qed.

End StringFacts.

(** ** Name canonicalization *)

(** C5: the three input forms of the name "123.test" in zone
    "example.com" all canonicalize to "123.test", and on every input
    [normalizeRecordName] computes the rule of the specification: strip
    the trailing dot of name and zone, strip the zone as a suffix of the
    name if present, put "@" for an empty remainder, strip a resulting
    trailing dot. *)
Theorem normalizeRecordName_canonical :
  normalizeRecordName "123.test.example.com" "example.com." = "123.test"
  /\ normalizeRecordName "123.test.example.com." "example.com" = "123.test"
  /\ normalizeRecordName "123.test" "example.com" = "123.test"
  /\ forall name zone : string,
       normalizeRecordName name zone = normalize_spec name zone.
Proof.
  repeat split; try reflexivity.
  intros name zone. unfold normalizeRecordName, normalize_spec,
    removeFQDNTrailingDot.
  rewrite !TrimSuffix_chop.
  destruct (strip_if_ends_with (strip_if_ends_with name ".")
              (strip_if_ends_with zone ".")); reflexivity.
Qed.

(** C9: suffix stripping has no label-boundary check.  A name made of a
    non-empty remainder that does not end in a dot, directly followed by
    the zone string, loses the zone characters and comes back as the
    bare remainder; "notexample.com" in zone "example.com" gives "not". *)
Theorem normalizeRecordName_no_label_boundary (pre zone : string) :
  pre <> "" ->
  strings.HasSuffix pre "." = false ->
  strings.HasSuffix (pre ++ removeFQDNTrailingDot zone) "." = false ->
  normalizeRecordName (pre ++ removeFQDNTrailingDot zone) zone = pre.
Proof.
  intros Hne Hdot Hname. unfold normalizeRecordName.
  assert (E1 : removeFQDNTrailingDot (pre ++ removeFQDNTrailingDot zone)
               = pre ++ removeFQDNTrailingDot zone)
    by (now apply TrimSuffix_no).
  rewrite E1, TrimSuffix_app.
  destruct (String.eqb_spec pre "") as [E|_]; [contradiction|].
  unfold removeFQDNTrailingDot. now apply TrimSuffix_no.
Qed.

Lemma normalizeRecordName_no_label_boundary_witness :
  normalizeRecordName "notexample.com" "example.com" = "not".
Proof.
  apply (normalizeRecordName_no_label_boundary "not" "example.com");
    [discriminate | reflexivity | reflexivity].
Defined.

(** ** Record codec *)

Section SplitFacts.

Lemma IndexByte_app (a b : string) (c : ascii) :
  strings.IndexByte a c = None ->
  strings.IndexByte (a ++ String c b) c = Some (String.length a).
Proof.
  induction a as [|x a IH]; intros H.
  - rewrite app_nil. simpl. now rewrite Ascii.eqb_refl.
  - rewrite app_cons. simpl in *.
    destruct (Ascii.eqb x c); [discriminate|].
    destruct (strings.IndexByte a c); [discriminate|].
    now rewrite IH.
Qed.

Lemma slice_app_l (a b : string) :
  strings.slice (a ++ b) 0 (String.length a) = a.
Proof.
  unfold strings.slice. rewrite Nat.sub_0_r. apply substring_app_l.
Qed.

Lemma slice_app_r (a b : string) (c : ascii) :
  strings.slice (a ++ String c b) (String.length a + 1)
    (String.length (a ++ String c b)) = b.
Proof.
  unfold strings.slice. rewrite length_app. simpl String.length.
  replace (String.length a + S (String.length b) - (String.length a + 1))%nat
    with (String.length b) by lia.
  replace (a ++ String c b) with ((a ++ String c "") ++ b).
  - replace (String.length a + 1)%nat with (String.length (a ++ String c ""))
      by (rewrite length_app; reflexivity).
    apply substring_app_r.
  - induction a as [|x a IH]; [reflexivity|].
    rewrite !app_cons. now rewrite IH.
Qed.

(** Splitting in two cuts at the first separator and keeps everything
    after it in the second piece. *)
Lemma SplitN_two_cut (a b : string) (c : ascii) :
  strings.IndexByte a c = None ->
  strings.SplitN (a ++ String c b) c 2 = [a; b].
Proof.
  intros H. simpl. rewrite (IndexByte_app a b c H).
  now rewrite slice_app_l, slice_app_r.
Qed.

Lemma SplitN_two_whole (a : string) (c : ascii) :
  strings.IndexByte a c = None -> strings.SplitN a c 2 = [a].
Proof. intros H. simpl. now rewrite H. Qed.

End SplitFacts.

(** The service branch of the reverse mapping cuts the host at its
    first ".". *)
Lemma libdnsRecord_SRV_split
    (parse : libdns.RR -> result libdns.Record)
    (r : dsDNSRecord) (p w q : Z) (a b : string) :
  Type_ r = "SRV" ->
  strconv.ParseUint16 (Priority r) = inr p ->
  strconv.ParseUint16 (Weight r) = inr w ->
  strconv.ParseUint16 (Port r) = inr q ->
  strings.IndexByte a "." = None ->
  (Host r = a ++ "." ++ b ->
   libdnsRecord parse r
   = inr (libdns.RecSRV
            (libdns.mkSRV (strings.TrimPrefix a "_") (strings.TrimPrefix b "_")
               (Host r) (time.of_seconds (TTL r)) p w q (Data r))))
  /\ (Host r = a -> libdnsRecord parse r = inl (ErrSRVName (Host r))).
Proof.
  intros HT Hp Hw Hq Ha. unfold libdnsRecord. rewrite HT, Hp, Hw, Hq.
  change (String.eqb "SRV" "MX") with false.
  change (String.eqb "SRV" "SRV") with true. cbv iota.
  split; intros ->.
  - change (a ++ "." ++ b) with (a ++ String "." b).
    now rewrite (SplitN_two_cut a b "." Ha).
  - now rewrite (SplitN_two_whole a "." Ha).
Qed.

(** C4, as the code has it: for a provider record of type SRV whose
    priority, weight and port parse as 16-bit numbers, the host is cut
    at its first "."; the service is the part before it and the
    transport everything after it, each without one leading underscore,
    the name is the whole host, and a host without "." is the
    malformed-name error.  So the record with host
    "_sip._tcp.example.com", priority "10", weight "5", port "5060" maps
    to service "sip", transport "tcp.example.com", priority 10, weight 5,
    port 5060; it is the same record with its host canonicalized against
    zone "example.com", as create submits it, that maps to transport
    "tcp". *)
Theorem libdnsRecord_SRV_first_dot
    (parse : libdns.RR -> result libdns.Record)
    (r : dsDNSRecord) (p w q : Z) (a b : string) :
  Type_ r = "SRV" ->
  strconv.ParseUint16 (Priority r) = inr p ->
  strconv.ParseUint16 (Weight r) = inr w ->
  strconv.ParseUint16 (Port r) = inr q ->
  strings.IndexByte a "." = None ->
  ((Host r = a ++ "." ++ b ->
    libdnsRecord parse r
    = inr (libdns.RecSRV
             (libdns.mkSRV (strings.TrimPrefix a "_")
                (strings.TrimPrefix b "_")
                (Host r) (time.of_seconds (TTL r)) p w q (Data r))))
   /\ (Host r = a -> libdnsRecord parse r = inl (ErrSRVName (Host r))))
  /\ libdnsRecord parse Samples.sip_record
     = inr (libdns.RecSRV
              (libdns.mkSRV "sip" "tcp.example.com" "_sip._tcp.example.com"
                 (3600 * time.Second) 10 5 5060 "sip.example.com."))
  /\ libdnsRecord parse
       (set_Host Samples.sip_record
          (normalizeRecordName (Host Samples.sip_record) "example.com"))
     = inr (libdns.RecSRV
              (libdns.mkSRV "sip" "tcp" "_sip._tcp"
                 (3600 * time.Second) 10 5 5060 "sip.example.com.")).
Proof.
  intros HT Hp Hw Hq Ha. split; [now apply libdnsRecord_SRV_split|].
  split; reflexivity.
Qed.

Lemma libdnsRecord_SRV_first_dot_witness :
  libdnsRecord RefServer.parse_flat Samples.sip_relative
  = inr (libdns.RecSRV
           (libdns.mkSRV "sip" "tcp" "_sip._tcp"
              (3600 * time.Second) 10 5 5060 "sip.example.com.")).
Proof.
  apply (libdnsRecord_SRV_first_dot RefServer.parse_flat Samples.sip_relative
           10 5 5060 "_sip" "_tcp"); reflexivity.
Defined.

(** C4 as stated fails on its own scenario: the record with host
    "_sip._tcp.example.com", priority "10", weight "5", port "5060" does
    not map to a service record with transport "tcp". *)
Lemma libdnsRecord_SRV_transport_not_tcp :
  ~ exists s : libdns.SRV,
      libdnsRecord RefServer.parse_flat Samples.sip_record
      = inr (libdns.RecSRV s)
      /\ libdns.SRV_Service s = "sip"
      /\ libdns.SRV_Transport s = "tcp"
      /\ libdns.SRV_Priority s = 10%Z
      /\ libdns.SRV_Weight s = 5%Z
      /\ libdns.SRV_Port s = 5060%Z.
Proof.
  intros (s & Hs & _ & Ht & _).
  vm_compute in Hs. injection Hs as <-. discriminate Ht.
Qed.

(** Printing a 16-bit number and parsing it back gives the number;
    checked on each of the 65536 values. *)
Lemma all_from_spec (check : Z -> bool) (fuel : nat) (p : Z) :
  (fix all_from (n : nat) (p : Z) : bool :=
     match n with
     | O => true
     | S n' => check p && all_from n' (p + 1)%Z
     end) fuel p = true ->
  forall q, (p <= q < p + Z.of_nat fuel)%Z -> check q = true.
Proof.
  revert p; induction fuel as [|n IH]; intros p H q Hq; [lia|].
  apply andb_true_iff in H as [H0 H1].
  destruct (Z.eq_dec q p) as [->|Hne]; [exact H0|].
  apply (IH (p + 1)%Z H1). lia.
Qed.

Lemma ParseUint16_Itoa (p : Z) :
  (0 <= p <= 65535)%Z -> strconv.ParseUint16 (strconv.Itoa p) = inr p.
Proof.
  intros Hp.
  pose (check := fun n : Z =>
                   match strconv.ParseUint16 (strconv.Itoa n) with
                   | inr q => (q =? n)%Z
                   | inl _ => false
                   end).
  assert (H : check p = true).
  { apply (all_from_spec check (Z.to_nat 65536) 0%Z);
      [vm_compute; reflexivity | rewrite Z2Nat.id; lia]. }
  unfold check in H.
  destruct (strconv.ParseUint16 (strconv.Itoa p)) as [e|q]; [discriminate|].
  f_equal. now apply Z.eqb_eq.
Qed.

Lemma whole_seconds_back (secs : Z) :
  (- 2 ^ 63 <= secs * time.Second < 2 ^ 63)%Z ->
  time.of_seconds (time.whole_seconds (secs * time.Second))
  = (secs * time.Second)%Z.
Proof.
  intros H. unfold time.whole_seconds, time.of_seconds, time.wrap64.
  rewrite Z.quot_mul by (unfold time.Second; lia).
  rewrite Z.mod_small by lia. lia.
Qed.

(** The forward mapping of a mail-exchange record leaves the flattened
    data, preference followed by target, in the data field; the service
    branch is the one that puts the bare target there. *)
Lemma forward_MX_data (m : libdns.MX) :
  exists d : dsDNSRecord,
    libdnsRecordTodsDNSRecord (libdns.RecMX m) = inr d
    /\ Data d = strconv.Itoa (libdns.MX_Preference m) ++ " "
                ++ libdns.MX_Target m.
Proof. eexists; split; reflexivity. Qed.

Lemma forward_SRV_data (s : libdns.SRV) :
  exists d : dsDNSRecord,
    libdnsRecordTodsDNSRecord (libdns.RecSRV s) = inr d
    /\ Data d = libdns.SRV_Target s.
Proof. eexists; split; reflexivity. Qed.

(** C3 as stated fails for both structured kinds: the service record
    sip/tcp of example.com comes back named after its whole flattened
    host, with transport "tcp.example.com", and the mail exchanger comes
    back with its preference in front of its target. *)
Lemma roundtrip_changes_SRV_and_MX :
  roundtrip RefServer.parse_flat (libdns.RecSRV Samples.srv_sip)
  = inr (libdns.RecSRV
           (libdns.mkSRV "sip" "tcp.example.com" "_sip._tcp.example.com"
              (3600 * time.Second) 10 5 5060 "sip.example.com."))
  /\ roundtrip RefServer.parse_flat (libdns.RecSRV Samples.srv_sip)
     <> inr (libdns.RecSRV Samples.srv_sip)
  /\ roundtrip RefServer.parse_flat (libdns.RecMX Samples.mx_apex)
     = inr (libdns.RecMX
              (libdns.mkMX "@" (300 * time.Second) 10 "10 mail.example.com."))
  /\ roundtrip RefServer.parse_flat (libdns.RecMX Samples.mx_apex)
     <> inr (libdns.RecMX Samples.mx_apex).
Proof.
  repeat split; try (vm_compute; reflexivity); vm_compute; discriminate.
Qed.

(** C3, as the code has it.  For a record of the fallback kind, flat or
    typed, of a type other than MX and SRV and with a time-to-live of
    whole seconds, the way there and back is the external parser applied
    to the record's own flattened view; so the record comes back
    unchanged whenever that parser maps its view to it.  A service record
    with 16-bit priority, weight and port and a time-to-live of whole
    seconds comes back with those and its target unchanged, but named
    after its whole flattened host, with service and transport
    re-derived from that host at its first ".". *)
Theorem roundtrip_by_kind (parse : libdns.RR -> result libdns.Record) :
  (forall (r : libdns.Record) (secs : Z),
     fallback_kind r = true ->
     libdns.RR_Type (libdns.to_RR r) <> "MX" ->
     libdns.RR_Type (libdns.to_RR r) <> "SRV" ->
     libdns.RR_TTL (libdns.to_RR r) = (secs * time.Second)%Z ->
     (- 2 ^ 63 <= secs * time.Second < 2 ^ 63)%Z ->
     roundtrip parse r = parse (libdns.to_RR r)
     /\ (parse (libdns.to_RR r) = inr r -> roundtrip parse r = inr r))
  /\ (forall (s : libdns.SRV) (secs : Z) (a b : string),
       (0 <= libdns.SRV_Priority s <= 65535)%Z ->
       (0 <= libdns.SRV_Weight s <= 65535)%Z ->
       (0 <= libdns.SRV_Port s <= 65535)%Z ->
       libdns.SRV_TTL s = (secs * time.Second)%Z ->
       (- 2 ^ 63 <= secs * time.Second < 2 ^ 63)%Z ->
       libdns.RR_Name (libdns.SRV_RR s) = a ++ "." ++ b ->
       strings.IndexByte a "." = None ->
       roundtrip parse (libdns.RecSRV s)
       = inr (libdns.RecSRV
                (libdns.mkSRV (strings.TrimPrefix a "_")
                   (strings.TrimPrefix b "_") (a ++ "." ++ b)
                   (libdns.SRV_TTL s) (libdns.SRV_Priority s)
                   (libdns.SRV_Weight s) (libdns.SRV_Port s)
                   (libdns.SRV_Target s)))).
Proof.
  split.
  - intros r secs Hkind HMX HSRV Httl Hrange.
    assert (E : roundtrip parse r = parse (libdns.to_RR r)).
    { destruct r as [v|m|sv|v]; try discriminate; simpl in *;
        unfold roundtrip, libdnsRecord; simpl;
        apply String.eqb_neq in HMX, HSRV; rewrite HMX, HSRV;
        rewrite Httl, (whole_seconds_back secs Hrange), <- Httl;
        now destruct v. }
    split; [exact E | now rewrite E].
  - intros s secs a b Hp Hw Hq Httl Hrange Hname Ha.
    unfold roundtrip. simpl libdnsRecordTodsDNSRecord. cbv iota beta.
    destruct (libdnsRecord_SRV_split parse
                (set_Data
                   (set_Weight
                      (set_Port
                         (set_Priority
                            (mkRec 0 (libdns.RR_Name (libdns.SRV_RR s))
                               (libdns.RR_Data (libdns.SRV_RR s)) "SRV"
                               (time.whole_seconds (libdns.SRV_TTL s))
                               "" "" "")
                            (strconv.Itoa (libdns.SRV_Priority s)))
                         (strconv.Itoa (libdns.SRV_Port s)))
                      (strconv.Itoa (libdns.SRV_Weight s)))
                   (libdns.SRV_Target s))
                (libdns.SRV_Priority s) (libdns.SRV_Weight s)
                (libdns.SRV_Port s) a b) as [Hsplit _];
      try reflexivity; try (simpl; now apply ParseUint16_Itoa);
      try assumption.
    simpl in Hsplit. rewrite Httl, (whole_seconds_back secs Hrange) in Hsplit.
    rewrite <- Httl in Hsplit. rewrite <- Hname.
    apply Hsplit. exact Hname.
Qed.

Lemma roundtrip_by_kind_witness :
  roundtrip Samples.parse_known Samples.txt_typed = inr Samples.txt_typed
  /\ roundtrip Samples.parse_known Samples.spf_flat = inr Samples.spf_flat
  /\ roundtrip Samples.parse_known (libdns.RecSRV Samples.srv_sip)
     = inr (libdns.RecSRV
              (libdns.mkSRV "sip" "tcp.example.com" "_sip._tcp.example.com"
                 (3600 * time.Second) 10 5 5060 "sip.example.com.")).
Proof.
  split; [|split].
  - apply (proj1 (roundtrip_by_kind Samples.parse_known)
             Samples.txt_typed 120%Z);
      [reflexivity | discriminate | discriminate | reflexivity
      | unfold time.Second; lia | reflexivity].
  - apply (proj1 (roundtrip_by_kind Samples.parse_known)
             Samples.spf_flat 3600%Z);
      [reflexivity | discriminate | discriminate | reflexivity
      | unfold time.Second; lia | reflexivity].
  - apply (proj2 (roundtrip_by_kind Samples.parse_known)
             Samples.srv_sip 3600%Z "_sip" "_tcp.example.com");
      try reflexivity; try (simpl; lia); unfold time.Second; lia.
Defined.

(** ** Record cache *)

Section CacheFacts.

Implicit Types (c record e : dsDNSRecord) (rs : list dsDNSRecord).

Lemma lookup_loop_cons c e rs :
  getRecordFromKnownRecords_loop c (e :: rs)
  = if matches c e then e else getRecordFromKnownRecords_loop c rs.
Proof.
  unfold matches, matches_by_id, matches_by_host_data. simpl.
  destruct ((ID c =? ID e)%Z && negb (ID c =? 0)%Z && negb (ID e =? 0)%Z);
    [reflexivity|].
  now destruct (String.eqb (Host c) (Host e) && String.eqb (Data c) (Data e)
                && negb (ID e =? 0)%Z).
Qed.

(** The loop returns the first entry, in slice order, that matches. *)
Lemma lookup_loop_first c rs :
  getRecordFromKnownRecords_loop c rs
  = default emptyRecord (List.find (matches c) rs).
Proof.
  induction rs as [|e rs IH]; [reflexivity|].
  rewrite lookup_loop_cons. simpl. now destruct (matches c e).
Qed.

Lemma lookup_loop_app_skip c l rs :
  Forall (fun e => matches c e = false) l ->
  getRecordFromKnownRecords_loop c (l ++ rs)
  = getRecordFromKnownRecords_loop c rs.
Proof.
  induction 1 as [|e l He _ IH]; [reflexivity|].
  rewrite <- app_comm_cons, lookup_loop_cons. now rewrite He.
Qed.

Lemma matches_zero_id c e : ID e = 0%Z -> matches c e = false.
Proof.
  intros H. unfold matches, matches_by_id, matches_by_host_data.
  rewrite H. simpl. now rewrite !andb_false_r.
Qed.

Lemma matches_nonzero c e : matches c e = true -> ID e <> 0%Z.
Proof.
  intros H E. now rewrite (matches_zero_id c e E) in H.
Qed.

(** A returned record is the not-found value or a stored entry with a
    non-zero identifier. *)
Lemma lookup_loop_result c rs :
  getRecordFromKnownRecords_loop c rs = emptyRecord
  \/ (getRecordFromKnownRecords_loop c rs ∈ rs
      /\ ID (getRecordFromKnownRecords_loop c rs) <> 0%Z).
Proof.
  induction rs as [|e rs IH]; [now left|].
  rewrite lookup_loop_cons. destruct (matches c e) eqn:M.
  - right. split; [apply list_elem_of_here | now apply (matches_nonzero c)].
  - destruct IH as [IH|[IH1 IH2]]; [now left|].
    right. split; [now apply list_elem_of_further | assumption].
Qed.

(** An entry whose identifier is zero is invisible to the lookup. *)
Lemma lookup_loop_skip_zero c rs i e :
  rs !! i = Some e -> ID e = 0%Z ->
  getRecordFromKnownRecords_loop c rs
  = getRecordFromKnownRecords_loop c (delete i rs).
Proof.
  revert i; induction rs as [|x rs IH]; intros i Hi Hz; [discriminate|].
  destruct i as [|i]; simpl in Hi.
  - injection Hi as ->. rewrite lookup_loop_cons.
    now rewrite (matches_zero_id c e Hz).
  - change (delete (S i) (x :: rs)) with (x :: delete i rs).
    rewrite !lookup_loop_cons. destruct (matches c x); [reflexivity|].
    now apply IH.
Qed.

Lemma remove_loop_Some record rs i :
  removeRecordFromKnownRecords_loop record rs = Some i ->
  exists e, rs !! i = Some e /\ ID e = ID record /\ ID record <> 0%Z.
Proof.
  revert i; induction rs as [|x rs IH]; intros i; simpl; [discriminate|].
  destruct ((ID record =? ID x)%Z && negb (ID record =? 0)%Z) eqn:C.
  - intros [= <-]. exists x.
    apply andb_true_iff in C as [C1 C2].
    apply Z.eqb_eq in C1. apply negb_true_iff, Z.eqb_neq in C2.
    now repeat split.
  - destruct (removeRecordFromKnownRecords_loop record rs) as [j|];
      [|discriminate].
    intros [= <-]. simpl. now apply IH.
Qed.

End CacheFacts.

(** C2 as stated fails when the host-and-data entry comes first: the
    candidate has identifier 7, the first cached entry shares only its
    host and data (identifier 5), the second only its identifier, and the
    lookup returns the first. *)
Lemma lookup_prefers_position_over_id :
  ID Samples.candidate <> 0%Z
  /\ (Host Samples.same_host_data = Host Samples.candidate
      /\ Data Samples.same_host_data = Data Samples.candidate
      /\ ID Samples.same_host_data <> ID Samples.candidate)
  /\ (ID Samples.same_id = ID Samples.candidate
      /\ Host Samples.same_id <> Host Samples.candidate
      /\ Data Samples.same_id <> Data Samples.candidate)
  /\ getRecordFromKnownRecords Samples.candidate "example.com"
       Samples.cache_host_data_first = Samples.same_host_data
  /\ getRecordFromKnownRecords Samples.candidate "example.com"
       Samples.cache_host_data_first <> Samples.same_id.
Proof.
  assert (E : getRecordFromKnownRecords Samples.candidate "example.com"
                Samples.cache_host_data_first = Samples.same_host_data)
    by (vm_compute; reflexivity).
  repeat split; try exact E; try (rewrite E); discriminate || reflexivity.
Qed.

(** C2, as the code has it: the lookup returns the first cached entry, in
    slice order, that matches by either rule.  With a candidate of
    non-zero identifier, an entry [eh] sharing only host and data and an
    entry [ei] sharing only the identifier, and no other match before
    them, the identifier match is returned when it comes first or when
    [eh] has identifier zero; when [eh] comes first with a non-zero
    identifier, [eh] is returned. *)
Theorem lookup_first_match_wins
    (p : Provider) (zone : string) (c eh ei : dsDNSRecord)
    (l1 l2 l3 : list dsDNSRecord) :
  ID c <> 0%Z ->
  Host eh = Host c -> Data eh = Data c -> ID eh <> ID c ->
  ID ei = ID c -> (Host ei <> Host c \/ Data ei <> Data c) ->
  Forall (fun e => matches c e = false) (l1 ++ l2)%list ->
  (knownRecords p !! zone = Some (l1 ++ ei :: l2 ++ eh :: l3)%list ->
   getRecordFromKnownRecords c zone p = ei)
  /\ (knownRecords p !! zone = Some (l1 ++ eh :: l2 ++ ei :: l3)%list ->
      getRecordFromKnownRecords c zone p
      = if (ID eh =? 0)%Z then ei else eh).
Proof.
  intros Hc Hh Hd Hne Hi Hother Hl.
  apply Forall_app in Hl as [Hl1 Hl2].
  assert (Mi : matches c ei = true).
  { unfold matches, matches_by_id. rewrite Hi, Z.eqb_refl.
    apply Z.eqb_neq in Hc. now rewrite Hc. }
  split; intros Hk; unfold getRecordFromKnownRecords; rewrite Hk.
  - rewrite (lookup_loop_app_skip c l1 _ Hl1), lookup_loop_cons.
    now rewrite Mi.
  - rewrite (lookup_loop_app_skip c l1 _ Hl1), lookup_loop_cons.
    destruct (ID eh =? 0)%Z eqn:Z0.
    + apply Z.eqb_eq in Z0. rewrite (matches_zero_id c eh Z0).
      rewrite (lookup_loop_app_skip c l2 _ Hl2), lookup_loop_cons.
      now rewrite Mi.
    + assert (Mh : matches c eh = true).
      { unfold matches, matches_by_host_data.
        rewrite Hh, Hd, !String.eqb_refl, Z0. simpl. apply orb_true_r. }
      now rewrite Mh.
Qed.

Lemma lookup_first_match_wins_witness :
  getRecordFromKnownRecords Samples.candidate "example.com"
    (mkProvider "token" "secret" ∅
       {[ "example.com" := [Samples.same_id; Samples.same_host_data] ]})
  = Samples.same_id
  /\ getRecordFromKnownRecords Samples.candidate "example.com"
       Samples.cache_host_data_first
     = Samples.same_host_data.
Proof.
  split.
  - apply (lookup_first_match_wins _ "example.com" Samples.candidate
             Samples.same_host_data Samples.same_id [] [] []);
      try discriminate; try reflexivity;
      [left; discriminate | constructor].
  - apply (lookup_first_match_wins Samples.cache_host_data_first
             "example.com" Samples.candidate
             Samples.same_host_data Samples.same_id [] [] []);
      try discriminate; try reflexivity;
      [left; discriminate | constructor].
Defined.

(** C8: when soft invalidation succeeds, it rewrites one position of the
    zone's slice to the same entry with identifier zero; the slice keeps
    its length, every other position and every other zone is unchanged,
    and from then on the lookup behaves, for every candidate, as if that
    position were not there: what it returns is the not-found value or
    an entry with a non-zero identifier. *)
Theorem tombstone_is_never_returned
    (p : Provider) (zone : string) (record : dsDNSRecord) :
  snd (removeRecordFromKnownRecords record zone p) = true ->
  exists (rs rs' : list dsDNSRecord) (i : nat) (e : dsDNSRecord),
    let p' := fst (removeRecordFromKnownRecords record zone p) in
    knownRecords p !! zone = Some rs
    /\ knownRecords p' !! zone = Some rs'
    /\ rs !! i = Some e /\ ID e = ID record /\ ID record <> 0%Z
    /\ rs' !! i = Some (set_ID e 0)
    /\ length rs' = length rs
    /\ (forall j, j <> i -> rs' !! j = rs !! j)
    /\ (forall z, z <> zone -> knownRecords p' !! z = knownRecords p !! z)
    /\ (forall c,
          getRecordFromKnownRecords c zone p'
          = getRecordFromKnownRecords_loop c (delete i rs'))
    /\ (forall c,
          getRecordFromKnownRecords c zone p' = emptyRecord
          \/ ID (getRecordFromKnownRecords c zone p') <> 0%Z).
Proof.
  unfold removeRecordFromKnownRecords.
  destruct (knownRecords p !! zone) as [rs|] eqn:Hk; [|discriminate].
  destruct (removeRecordFromKnownRecords_loop record rs) as [i|] eqn:Hi;
    [|discriminate].
  intros _. destruct (remove_loop_Some _ _ _ Hi) as (e & He & Hid & Hnz).
  exists rs, (alter (fun r => set_ID r 0) i rs), i, e. simpl.
  assert (Hi' : alter (fun r => set_ID r 0) i rs !! i = Some (set_ID e 0))
    by (now rewrite list_lookup_alter_eq, He).
  repeat split; try assumption.
  - apply lookup_insert_eq.
  - apply length_alter.
  - intros j Hj. now apply list_lookup_alter_ne.
  - intros z Hz. now apply lookup_insert_ne.
  - intros c. unfold getRecordFromKnownRecords. simpl.
    rewrite lookup_insert_eq.
    now apply (lookup_loop_skip_zero c _ i (set_ID e 0)).
  - intros c. unfold getRecordFromKnownRecords. simpl.
    rewrite lookup_insert_eq.
    destruct (lookup_loop_result c (alter (fun r => set_ID r 0) i rs))
      as [H|[_ H]]; [now left | now right].
Qed.

Lemma tombstone_is_never_returned_witness :
  exists (rs rs' : list dsDNSRecord) (i : nat) (e : dsDNSRecord),
    let p' := fst (removeRecordFromKnownRecords Samples.candidate
                     "example.com" Samples.cache_host_data_first) in
    knownRecords Samples.cache_host_data_first !! "example.com" = Some rs
    /\ knownRecords p' !! "example.com" = Some rs'
    /\ rs !! i = Some e /\ ID e = ID Samples.candidate
    /\ ID Samples.candidate <> 0%Z
    /\ rs' !! i = Some (set_ID e 0)
    /\ length rs' = length rs
    /\ (forall j, j <> i -> rs' !! j = rs !! j)
    /\ (forall z, z <> "example.com" ->
          knownRecords p' !! z
          = knownRecords Samples.cache_host_data_first !! z)
    /\ (forall c,
          getRecordFromKnownRecords c "example.com" p'
          = getRecordFromKnownRecords_loop c (delete i rs'))
    /\ (forall c,
          getRecordFromKnownRecords c "example.com" p' = emptyRecord
          \/ ID (getRecordFromKnownRecords c "example.com" p') <> 0%Z).
Proof.
  apply (tombstone_is_never_returned Samples.cache_host_data_first
           "example.com" Samples.candidate).
  vm_compute. reflexivity.
Defined.

(** ** Zone resolver and orchestrator *)

Section ClientFacts.

Variable World : Type.
Variable transport :
  forall T, string -> string -> Request T -> World -> result T * World.

Implicit Types (st : State World) (p : Provider) (calls : list Call).

Local Abbreviation getDomainInfo' := (getDomainInfo World transport).
Local Abbreviation getAllDomainRecords' := (getAllDomainRecords World transport).
Local Abbreviation getDNSRecord' := (getDNSRecord World transport).
Local Abbreviation deleteDNSRecord' := (deleteDNSRecord World transport).
Local Abbreviation createDNSRecord' := (createDNSRecord World transport).
Local Abbreviation updateDNSRecord' := (updateDNSRecord World transport).

Lemma doRequest_eq {T} t s (r : Request T) st res w :
  transport T t s r (world st) = (res, w) ->
  doRequest World transport t s r st = (res, after_call st r w).
Proof. unfold doRequest. now intros ->. Qed.

Lemma getDomainInfo_hit t s zone st z :
  zones (prov st) !! zone = Some z ->
  getDomainInfo' t s zone st = (inr z, st).
Proof. unfold getDomainInfo, bind, gets. now intros ->. Qed.

Lemma getDomainInfo_miss t s zone st res w :
  zones (prov st) !! zone = None ->
  transport _ t s (GetDomains (removeFQDNTrailingDot zone)) (world st)
  = (res, w) ->
  getDomainInfo' t s zone st
  = let st1 := after_call st (GetDomains (removeFQDNTrailingDot zone)) w in
    match res with
    | inl e => (inl e, st1)
    | inr [z] =>
        (inr z,
         mkState (set_zones (prov st) (<[zone := z]> (zones (prov st))))
           w (trace st1))
    | inr zs => (inl (ErrZoneCount (length zs) zone), st1)
    end.
Proof.
  intros Hz Ht. unfold getDomainInfo, bind, gets. rewrite Hz.
  rewrite (doRequest_eq _ _ _ _ _ _ Ht).
  destruct res as [e|[|z [|z' zs]]]; reflexivity.
Qed.

(** What a resolution leaves behind: the same world and trace on a hit,
    one more GET on a miss, and on success the zone under its key. *)
Lemma getDomainInfo_effect t s zone st res st' :
  getDomainInfo' t s zone st = (res, st') ->
  knownRecords (prov st') = knownRecords (prov st)
  /\ (exists calls, trace st' = (trace st ++ calls)%list
                    /\ Forall (fun c => call_method c = GET) calls)
  /\ (forall d, res = inr d -> zones (prov st') !! zone = Some d).
Proof.
  destruct (zones (prov st) !! zone) as [z|] eqn:Hz.
  - rewrite (getDomainInfo_hit _ _ _ _ _ Hz). intros [= <- <-].
    repeat split; [exists []; now rewrite app_nil_r | now intros d [= <-]].
  - destruct (transport _ t s (GetDomains (removeFQDNTrailingDot zone))
                (world st)) as [r w] eqn:Ht.
    rewrite (getDomainInfo_miss _ _ _ _ _ _ Hz Ht). cbv zeta.
    assert (G : Forall (fun c => call_method c = GET)
                  [call (GetDomains (removeFQDNTrailingDot zone))])
      by (repeat constructor).
    destruct r as [e|[|z [|z' zs]]]; intros [= <- <-]; simpl;
      (repeat split; [eexists; split; [reflexivity | exact G] |]);
      try discriminate.
    intros d [= <-]. apply lookup_insert_eq.
Qed.

Lemma getAllDomainRecords_effect t s zone st rs st' :
  getAllDomainRecords' t s zone st = (inr rs, st') ->
  knownRecords (prov st') !! zone = Some rs
  /\ exists calls, trace st' = (trace st ++ calls)%list
                   /\ Forall (fun c => call_method c = GET) calls.
Proof.
  unfold getAllDomainRecords, bind at 1.
  destruct (getDomainInfo' t s zone st) as [[e|d] st1] eqn:Hd;
    [discriminate|].
  apply getDomainInfo_effect in Hd as (_ & (c1 & Hc1 & G1) & _).
  unfold bind at 1, doRequest.
  destruct (transport _ t s (GetDNS (zID d)) (world st1)) as [[e|res] w];
    [discriminate|].
  unfold bind, modify, ret. simpl. intros [= <- <-]. simpl. split.
  - apply lookup_insert_eq.
  - exists (c1 ++ [call (GetDNS (zID d))])%list. split.
    + now rewrite Hc1, app_assoc.
    + apply Forall_app; split; [exact G1 | repeat constructor].
Qed.

(** On a cache miss, an answer with zero or several zones is the error
    carrying the count and the zone string as passed in; an answer with
    exactly one zone returns it and stores it under the zone string as
    passed in, not the dot-stripped one that was queried. *)
Lemma getDomainInfo_miss_cases t s zone st zs w :
  zones (prov st) !! zone = None ->
  transport _ t s (GetDomains (removeFQDNTrailingDot zone)) (world st)
  = (inr zs, w) ->
  let st1 := after_call st (GetDomains (removeFQDNTrailingDot zone)) w in
  (length zs <> 1%nat ->
   getDomainInfo' t s zone st
   = (inl (ErrZoneCount (length zs) zone), st1))
  /\ (forall z, zs = [z] ->
      getDomainInfo' t s zone st
      = (inr z,
         mkState (set_zones (prov st) (<[zone := z]> (zones (prov st))))
           w (trace st1))).
Proof.
  intros Hz Ht st1. rewrite (getDomainInfo_miss _ _ _ _ _ _ Hz Ht).
  split.
  - intros Hn. destruct zs as [|z [|z' zs]]; try reflexivity.
    now contradiction Hn.
  - now intros z ->.
Qed.

(** C10: the record returned by create is the input with the host
    canonicalized and the identifier taken from the response; nothing
    else of the response is used.  The request body is that record
    before the identifier is copied, with 120 put for a zero
    time-to-live, which the returned record keeps as zero. *)
Theorem createDNSRecord_frame t s zone (record : dsDNSRecord) st d st1
    (res : dsDNSRecord) w :
  let host := normalizeRecordName (Host record) zone in
  let body := reqData (set_Host record host) in
  getDomainInfo' t s zone st = (inr d, st1) ->
  transport _ t s (PostCreate (zID d) body) (world st1) = (inr res, w) ->
  createDNSRecord' t s zone record st
  = (inr (mkRec (ID res) host (Data record) (Type_ record) (TTL record)
            (Priority record) (Weight record) (Port record)),
     after_call st1 (PostCreate (zID d) body) w)
  /\ body = mkRec (ID record) host (Data record) (Type_ record)
              (if (TTL record =? 0)%Z then 120%Z else TTL record)
              (Priority record) (Weight record) (Port record).
Proof.
  intros host body Hd Ht. split.
  - unfold createDNSRecord, bind at 1. rewrite Hd.
    unfold bind. fold host. fold body.
    now rewrite (doRequest_eq _ _ _ _ _ _ Ht).
  - unfold body, reqData. simpl. now destruct (TTL record =? 0)%Z.
Qed.

Lemma getDNSRecord_refresh_empty t s zone record st rs st2 :
  getRecordFromKnownRecords record zone (prov st) = emptyRecord ->
  getAllDomainRecords' t s zone st = (inr rs, st2) ->
  getDNSRecord' t s zone record st
  = (inr (getRecordFromKnownRecords_loop record rs), st2).
Proof.
  intros Hc Hr. unfold getDNSRecord, bind at 1, gets at 1. rewrite Hc.
  destruct (decide (emptyRecord = emptyRecord)) as [_|N]; [|now contradiction N].
  unfold bind. rewrite Hr. unfold gets, getRecordFromKnownRecords.
  now destruct (getAllDomainRecords_effect _ _ _ _ _ _ Hr) as [-> _].
Qed.

Lemma getDNSRecord_cached t s zone record st :
  getRecordFromKnownRecords record zone (prov st) <> emptyRecord ->
  getDNSRecord' t s zone record st
  = (inr (getRecordFromKnownRecords record zone (prov st)), st).
Proof.
  intros Hc. unfold getDNSRecord, bind, gets.
  destruct (decide (emptyRecord = _)) as [E|_]; [|reflexivity].
  now contradiction Hc.
Qed.

(** C6: a record that the cache does not hold and that the refreshed
    snapshot does not hold either is deleted successfully with no
    DELETE sent: every request issued during the call is a GET. *)
Theorem deleteDNSRecord_absent_is_noop t s zone (record : dsDNSRecord)
    st d st1 rs st2 :
  getRecordFromKnownRecords record zone (prov st) = emptyRecord ->
  getDomainInfo' t s zone st = (inr d, st1) ->
  getAllDomainRecords' t s zone st1 = (inr rs, st2) ->
  getRecordFromKnownRecords_loop record rs = emptyRecord ->
  deleteDNSRecord' t s zone record st = (inr tt, st2)
  /\ exists calls,
       trace st2 = (trace st ++ calls)%list
       /\ Forall (fun c => call_method c = GET) calls
       /\ existsb is_delete calls = false.
Proof.
  intros Hc Hd Hr He.
  assert (Hc1 : getRecordFromKnownRecords record zone (prov st1)
                = emptyRecord).
  { destruct (getDomainInfo_effect _ _ _ _ _ _ Hd) as [Hk _].
    unfold getRecordFromKnownRecords in *. now rewrite Hk. }
  clear Hc. rename Hc1 into Hc. split.
  - unfold deleteDNSRecord, bind at 1. rewrite Hd.
    unfold bind at 1.
    rewrite (getDNSRecord_refresh_empty _ _ _ _ _ _ _ Hc Hr), He.
    now destruct (decide (emptyRecord = emptyRecord)) as [_|N];
      [|contradiction N].
  - apply getDomainInfo_effect in Hd as (_ & (c1 & Hc1 & G1) & _).
    apply getAllDomainRecords_effect in Hr as (_ & c2 & Hc2 & G2).
    exists (c1 ++ c2)%list. split; [now rewrite Hc2, Hc1, app_assoc|].
    assert (G : Forall (fun c => call_method c = GET) (c1 ++ c2)%list)
      by (apply Forall_app; now split).
    split; [exact G|].
    clear -G. induction G as [|c l Hc _ IH]; [reflexivity|].
    simpl. unfold is_delete at 1. now rewrite Hc.
Qed.


End ClientFacts.

(** ** The zone cache over an instance's history *)

Section ZoneCacheStable.

Variable World : Type.
Variable transport :
  forall T, string -> string -> Request T -> World -> result T * World.
Variable RR_Parse : libdns.RR -> result libdns.Record.

(** The zone cache holds [z] under key [k]. *)
Variables (k : string) (z : dsZone).

Let P (p : Provider) : Prop := zones p !! k = Some z.

Local Abbreviation keeps' := (keeps World P).

Lemma keeps_ret {A} (a : A) : keeps' (ret World a).
Proof. now intros st. Qed.

Lemma keeps_fail {A} (e : error) : keeps' (@fail World A e).
Proof. now intros st. Qed.

Lemma keeps_lift {A} (r : result A) : keeps' (lift World r).
Proof. now intros st. Qed.

Lemma keeps_gets {A} (f : Provider -> A) : keeps' (gets World f).
Proof. now intros st. Qed.

Lemma keeps_bind {A B} (m : M World A) (f : A -> M World B) :
  keeps' m -> (forall a, keeps' (f a)) -> keeps' (bind World m f).
Proof.
  intros Hm Hf st HP. unfold bind. specialize (Hm st HP).
  destruct (m st) as [[e|a] st1]; simpl in *; [assumption|].
  now apply Hf.
Qed.

Lemma keeps_doRequest {T} t s (r : Request T) :
  keeps' (doRequest World transport t s r).
Proof.
  intros st HP. unfold doRequest.
  now destruct (transport T t s r (world st)).
Qed.

Lemma keeps_modify (f : Provider -> Provider) :
  (forall p, zones (f p) = zones p) -> keeps' (modify World f).
Proof. intros Hf st HP. unfold P. simpl. now rewrite Hf. Qed.

Lemma keeps_getDomainInfo t s zone :
  keeps' (getDomainInfo World transport t s zone).
Proof.
  intros st HP.
  destruct (zones (prov st) !! zone) as [d|] eqn:Hz.
  - now rewrite (getDomainInfo_hit World transport t s zone st d Hz).
  - destruct (transport _ t s (GetDomains (removeFQDNTrailingDot zone))
                (world st)) as [r w] eqn:Ht.
    rewrite (getDomainInfo_miss World transport t s zone st r w Hz Ht).
    cbv zeta. destruct r as [e|[|d [|d' zs]]]; simpl; try assumption.
    unfold P. simpl. rewrite lookup_insert_ne; [assumption|].
    intros ->. unfold P in HP. congruence.
Qed.

Lemma zones_removeRecord record zone p :
  zones (fst (removeRecordFromKnownRecords record zone p)) = zones p.
Proof.
  unfold removeRecordFromKnownRecords.
  destruct (knownRecords p !! zone) as [rs|]; [|reflexivity].
  now destruct (removeRecordFromKnownRecords_loop record rs).
Qed.

Lemma keeps_getAllDomainRecords t s zone :
  keeps' (getAllDomainRecords World transport t s zone).
Proof.
  apply keeps_bind; [apply keeps_getDomainInfo | intros d].
  apply keeps_bind; [apply keeps_doRequest | intros rs].
  apply keeps_bind; [now apply keeps_modify | intros _; apply keeps_ret].
Qed.

Lemma keeps_getDNSRecord t s zone record :
  keeps' (getDNSRecord World transport t s zone record).
Proof.
  apply keeps_bind; [apply keeps_gets | intros r].
  destruct (decide (emptyRecord = r)); [|apply keeps_ret].
  apply keeps_bind; [apply keeps_getAllDomainRecords | intros _].
  apply keeps_gets.
Qed.

Lemma keeps_deleteDNSRecord t s zone record :
  keeps' (deleteDNSRecord World transport t s zone record).
Proof.
  apply keeps_bind; [apply keeps_getDomainInfo | intros d].
  apply keeps_bind; [apply keeps_getDNSRecord | intros r].
  destruct (decide (emptyRecord = r)); [apply keeps_ret|].
  apply keeps_bind; [apply keeps_doRequest | intros _].
  apply keeps_bind; [| intros _; apply keeps_ret].
  apply keeps_modify. intros p. apply zones_removeRecord.
Qed.

Lemma keeps_createDNSRecord t s zone record :
  keeps' (createDNSRecord World transport t s zone record).
Proof.
  apply keeps_bind; [apply keeps_getDomainInfo | intros d].
  apply keeps_bind; [apply keeps_doRequest | intros r; apply keeps_ret].
Qed.

Lemma keeps_updateDNSRecord t s zone record :
  keeps' (updateDNSRecord World transport t s zone record).
Proof.
  apply keeps_bind; [apply keeps_getDomainInfo | intros d].
  apply keeps_bind; [apply keeps_doRequest | intros _].
  apply keeps_getDNSRecord.
Qed.

Lemma keeps_createOrUpdateDNSRecord t s zone record :
  keeps' (createOrUpdateDNSRecord World transport t s zone record).
Proof.
  unfold createOrUpdateDNSRecord.
  destruct (ID record =? 0)%Z;
    [apply keeps_createDNSRecord | apply keeps_updateDNSRecord].
Qed.

Lemma keeps_with_credentials {A} (f : string -> string -> M World A) :
  (forall t s, keeps' (f t s)) -> keeps' (with_credentials World f).
Proof.
  intros Hf. apply keeps_bind; [apply keeps_gets | intros t].
  apply keeps_bind; [apply keeps_gets | intros s; apply Hf].
Qed.

Lemma keeps_GetRecords zone :
  keeps' (GetRecords World transport RR_Parse zone).
Proof.
  apply keeps_bind; [| intros rs; apply keeps_lift].
  apply keeps_with_credentials. intros t s. apply keeps_getAllDomainRecords.
Qed.

Lemma keeps_AppendRecords zone records :
  keeps' (AppendRecords World transport RR_Parse zone records).
Proof.
  induction records as [|r rs IH]; [apply keeps_ret|]. simpl.
  apply keeps_bind; [apply keeps_lift | intros d].
  apply keeps_bind; [| intros res].
  { apply keeps_with_credentials. intros t s. apply keeps_createDNSRecord. }
  apply keeps_bind; [apply keeps_lift | intros l].
  apply keeps_bind; [exact IH | intros c; apply keeps_ret].
Qed.

Lemma keeps_DeleteRecords zone records :
  keeps' (DeleteRecords World transport zone records).
Proof.
  apply keeps_bind; [| intros _; apply keeps_ret].
  induction records as [|r rs IH]; [apply keeps_ret|]. simpl.
  apply keeps_bind; [apply keeps_lift | intros d].
  apply keeps_bind; [| intros _; exact IH].
  apply keeps_with_credentials. intros t s. apply keeps_deleteDNSRecord.
Qed.

Lemma keeps_SetRecords zone records :
  keeps' (SetRecords World transport RR_Parse zone records).
Proof.
  apply keeps_bind; [| intros l; apply keeps_lift].
  induction records as [|r rs IH]; [apply keeps_ret|]. simpl.
  apply keeps_bind; [apply keeps_lift | intros d].
  apply keeps_bind; [| intros n].
  { apply keeps_with_credentials. intros t s.
    apply keeps_createOrUpdateDNSRecord. }
  apply keeps_bind; [exact IH | intros c; apply keeps_ret].
Qed.

(** No public operation, successful or not, drops or replaces a zone
    that has been resolved. *)
Lemma run_ops_keeps_zone (ops : list op) (st : State World) :
  zones (prov st) !! k = Some z ->
  zones (prov (run_ops World transport RR_Parse ops st)) !! k = Some z.
Proof.
  revert st; induction ops as [|o ops IH]; intros st HP; [exact HP|].
  apply IH. destruct o as [zone|zone rs|zone rs|zone rs]; simpl.
  - now apply keeps_GetRecords.
  - now apply keeps_AppendRecords.
  - now apply keeps_DeleteRecords.
  - now apply keeps_SetRecords.
Qed.

End ZoneCacheStable.

(** C7: when the zone is not yet cached and the remote query answers
    with a list of zones, a list of length other than one is the error
    that carries the count and the zone string; a list of exactly one
    zone is returned and stored under the zone string as the caller
    passed it, and after any further sequence of public operations a
    resolution of that same string returns the stored zone and leaves
    the state, and with it the trace of requests, untouched. *)
Theorem getDomainInfo_resolution
    (World : Type)
    (transport :
       forall T, string -> string -> Request T -> World -> result T * World)
    (RR_Parse : libdns.RR -> result libdns.Record)
    (t s zone : string) (st : State World) (zs : list dsZone) (w : World) :
  zones (prov st) !! zone = None ->
  transport _ t s (GetDomains (removeFQDNTrailingDot zone)) (world st)
  = (inr zs, w) ->
  let st1 := after_call st (GetDomains (removeFQDNTrailingDot zone)) w in
  (length zs <> 1%nat ->
   getDomainInfo World transport t s zone st
   = (inl (ErrZoneCount (length zs) zone), st1))
  /\ (forall z, zs = [z] ->
      let st2 :=
        mkState (set_zones (prov st) (<[zone := z]> (zones (prov st))))
          w (trace st1) in
      getDomainInfo World transport t s zone st = (inr z, st2)
      /\ forall (ops : list op) (t' s' : string),
           let st3 := run_ops World transport RR_Parse ops st2 in
           getDomainInfo World transport t' s' zone st3 = (inr z, st3)).
Proof.
  intros Hz Ht st1.
  destruct (getDomainInfo_miss_cases World transport t s zone st zs w Hz Ht)
    as [Hbad Hone].
  split; [exact Hbad|]. intros z Hzs st2. split; [now apply Hone|].
  intros ops t' s' st3. apply getDomainInfo_hit.
  apply run_ops_keeps_zone. simpl. apply lookup_insert_eq.
Qed.

Lemma getDomainInfo_resolution_witness :
  let zone := "example.com." in
  let st := RefServer.state0 in
  let w := RefServer.world0 in
  let zs := [RefServer.example_zone] in
  let st1 := after_call st (GetDomains (removeFQDNTrailingDot zone)) w in
  (length zs <> 1%nat ->
   getDomainInfo _ RefServer.transport "token" "secret" zone st
   = (inl (ErrZoneCount (length zs) zone), st1))
  /\ (forall z, zs = [z] ->
      let st2 :=
        mkState (set_zones (prov st) (<[zone := z]> (zones (prov st))))
          w (trace st1) in
      getDomainInfo _ RefServer.transport "token" "secret" zone st
      = (inr z, st2)
      /\ forall (ops : list op) (t' s' : string),
           let st3 :=
             run_ops _ RefServer.transport RefServer.parse_flat ops st2 in
           getDomainInfo _ RefServer.transport t' s' zone st3 = (inr z, st3)).
Proof.
  apply (getDomainInfo_resolution RefServer.World RefServer.transport
           RefServer.parse_flat "token" "secret" "example.com."
           RefServer.state0 [RefServer.example_zone] RefServer.world0);
    reflexivity.
Defined.

(** ** Runs *)

Lemma createDNSRecord_frame_witness :
  let st1 := snd (getDomainInfo _ RefServer.transport "token" "secret"
                    "example.com." RefServer.state0) in
  let body := mkRec 0 "www" "192.0.2.1" "A" 120 "" "" "" in
  createDNSRecord _ RefServer.transport "token" "secret" "example.com."
    Runs.fresh RefServer.state0
  = (inr (mkRec 8 "www" "192.0.2.1" "A" 0 "" "" ""),
     after_call st1 (PostCreate 1 body)
       (RefServer.mkWorld [RefServer.example_zone]
          [(1%Z, RefServer.txt 7 "test1" "test1"); (1%Z, set_ID body 8)] 9))
  /\ reqData (set_Host Runs.fresh
                (normalizeRecordName (Host Runs.fresh) "example.com."))
     = body.
Proof.
  apply (createDNSRecord_frame RefServer.World RefServer.transport
           "token" "secret" "example.com." Runs.fresh RefServer.state0
           RefServer.example_zone
           (snd (getDomainInfo _ RefServer.transport "token" "secret"
                   "example.com." RefServer.state0))
           (mkRec 8 "www" "192.0.2.1" "A" 120 "" "" "")
           (RefServer.mkWorld [RefServer.example_zone]
              [(1%Z, RefServer.txt 7 "test1" "test1");
               (1%Z, mkRec 8 "www" "192.0.2.1" "A" 120 "" "" "")] 9));
    vm_compute; reflexivity.
Defined.

Lemma deleteDNSRecord_absent_is_noop_witness :
  let st1 := snd (getDomainInfo _ RefServer.transport "token" "secret"
                    Runs.zone RefServer.state0) in
  let st2 := snd (getAllDomainRecords _ RefServer.transport "token" "secret"
                    Runs.zone st1) in
  deleteDNSRecord _ RefServer.transport "token" "secret" Runs.zone
    Runs.ghost RefServer.state0 = (inr tt, st2)
  /\ exists calls,
       trace st2 = (trace RefServer.state0 ++ calls)%list
       /\ Forall (fun c => call_method c = GET) calls
       /\ existsb is_delete calls = false.
Proof.
  apply (deleteDNSRecord_absent_is_noop RefServer.World RefServer.transport
           "token" "secret" Runs.zone Runs.ghost RefServer.state0
           RefServer.example_zone
           (snd (getDomainInfo _ RefServer.transport "token" "secret"
                   Runs.zone RefServer.state0))
           [RefServer.txt 7 "test1" "test1"]
           (snd (getAllDomainRecords _ RefServer.transport "token" "secret"
                   Runs.zone
                   (snd (getDomainInfo _ RefServer.transport "token"
                           "secret" Runs.zone RefServer.state0)))));
    vm_compute; reflexivity.
Defined.

(** The forward mapping never sets an identifier. *)
Lemma libdnsRecordTodsDNSRecord_ID (r : libdns.Record) (d : dsDNSRecord) :
  libdnsRecordTodsDNSRecord r = inr d -> ID d = 0%Z.
Proof. destruct r; intros [= <-]; reflexivity. Qed.

(** So the upsert loop takes the create path for every input record. *)
Lemma createOrUpdate_of_converted
    (World : Type)
    (transport :
       forall T, string -> string -> Request T -> World -> result T * World)
    (t s zone : string) (r : libdns.Record) (d : dsDNSRecord) :
  libdnsRecordTodsDNSRecord r = inr d ->
  createOrUpdateDNSRecord World transport t s zone d
  = createDNSRecord World transport t s zone d.
Proof.
  intros H. unfold createOrUpdateDNSRecord.
  now rewrite (libdnsRecordTodsDNSRecord_ID r d H).
Qed.


(** * Further properties of the record cache *)

Section CacheMore.

Implicit Types (c record e : dsDNSRecord) (rs : list dsDNSRecord).

Lemma find_ext (f g : dsDNSRecord -> bool) rs :
  (forall e, f e = g e) -> List.find f rs = List.find g rs.
Proof.
  intros H. induction rs as [|e rs IH]; [reflexivity|].
  simpl. now rewrite H, IH.
Qed.

Lemma matches_zero_candidate c e :
  ID c = 0%Z -> matches c e = matches_by_host_data c e.
Proof.
  intros H. unfold matches, matches_by_id. rewrite H.
  now rewrite andb_false_r.
Qed.

Lemma matches_not_empty c e : matches c e = true -> e <> emptyRecord.
Proof.
  intros H ->. now rewrite (matches_zero_id c emptyRecord eq_refl) in H.
Qed.

(** What the loop returns is empty, or a stored entry that matches. *)
Lemma lookup_loop_sound c rs :
  getRecordFromKnownRecords_loop c rs <> emptyRecord ->
  getRecordFromKnownRecords_loop c rs ∈ rs
  /\ matches c (getRecordFromKnownRecords_loop c rs) = true.
Proof.
  induction rs as [|e rs IH]; [now intros H|].
  rewrite lookup_loop_cons. destruct (matches c e) eqn:M.
  - intros _. split; [apply list_elem_of_here | exact M].
  - intros H. destruct (IH H) as [H1 H2].
    split; [now apply list_elem_of_further | exact H2].
Qed.

Lemma lookup_loop_complete c rs e :
  e ∈ rs -> matches c e = true ->
  getRecordFromKnownRecords_loop c rs <> emptyRecord.
Proof.
  induction 1 as [e rs|e x rs _ IH]; intros M; rewrite lookup_loop_cons.
  - rewrite M. now apply (matches_not_empty c).
  - destruct (matches c x) eqn:Mx; [now apply (matches_not_empty c)|].
    now apply IH.
Qed.

Lemma remove_loop_None record rs :
  removeRecordFromKnownRecords_loop record rs = None ->
  ID record = 0%Z \/ Forall (fun e => ID e <> ID record) rs.
Proof.
  intros H.
  destruct (Z.eq_dec (ID record) 0%Z) as [Hz|Hz]; [now left|]. right.
  revert H. induction rs as [|x rs IH]; intros H; [constructor|].
  simpl in H.
  destruct (Z.eqb_spec (ID record) (ID x)) as [E|N]; simpl in H.
  - apply Z.eqb_neq in Hz. rewrite Hz in H. discriminate.
  - constructor; [congruence|]. apply IH.
    now destruct (removeRecordFromKnownRecords_loop record rs).
Qed.

Lemma remove_loop_least record rs i :
  removeRecordFromKnownRecords_loop record rs = Some i ->
  forall j e, (j < i)%nat -> rs !! j = Some e -> ID e <> ID record.
Proof.
  revert i; induction rs as [|x rs IH]; intros i; simpl; [discriminate|].
  destruct ((ID record =? ID x)%Z && negb (ID record =? 0)%Z) eqn:C.
  - intros [= <-] j e Hj. lia.
  - destruct (removeRecordFromKnownRecords_loop record rs) as [i'|] eqn:Hi;
      [|discriminate].
    intros [= <-] j e Hj Hl. destruct j as [|j]; simpl in Hl.
    + injection Hl as ->. destruct (remove_loop_Some _ _ _ Hi)
        as (e0 & _ & _ & Hnz).
      intros E. rewrite E, Z.eqb_refl in C. apply Z.eqb_neq in Hnz.
      rewrite Hnz in C. discriminate.
    + apply (IH i' eq_refl j e); [lia | exact Hl].
Qed.

Lemma remove_loop_finds record rs e :
  e ∈ rs -> ID e = ID record -> ID record <> 0%Z ->
  exists i, removeRecordFromKnownRecords_loop record rs = Some i.
Proof.
  intros He Hid Hnz.
  destruct (removeRecordFromKnownRecords_loop record rs) as [i|] eqn:H;
    [now exists i|].
  destruct (remove_loop_None _ _ H) as [Hz|Hall]; [contradiction|].
  rewrite Forall_forall in Hall. now destruct (Hall e He).
Qed.

End CacheMore.

(** X1: a candidate without an identifier is matched by host and data
    only: the lookup returns the first cached entry with a non-zero
    identifier whose host and data equal the candidate's, and nothing
    otherwise, even if entries with identifier zero are cached. *)
Theorem lookup_candidate_without_id
    (c : dsDNSRecord) (zone : string) (p : Provider)
    (rs : list dsDNSRecord) :
  ID c = 0%Z ->
  knownRecords p !! zone = Some rs ->
  getRecordFromKnownRecords c zone p
  = default emptyRecord (List.find (matches_by_host_data c) rs).
Proof.
  intros Hz Hk. unfold getRecordFromKnownRecords. rewrite Hk.
  rewrite lookup_loop_first. f_equal. apply find_ext.
  intros e. now apply matches_zero_candidate.
Qed.

Lemma lookup_candidate_without_id_witness :
  getRecordFromKnownRecords (RefServer.txt 0 "www" "192.0.2.1")
    "example.com" Samples.cache_host_data_first
  = default emptyRecord
      (List.find (matches_by_host_data (RefServer.txt 0 "www" "192.0.2.1"))
         [Samples.same_host_data; Samples.same_id]).
Proof.
  apply (lookup_candidate_without_id (RefServer.txt 0 "www" "192.0.2.1")
           "example.com" Samples.cache_host_data_first);
    reflexivity.
Defined.

(** X2: the lookup finds something exactly when the zone has a cached
    snapshot with an entry that matches the candidate, and what it finds
    is such an entry of that snapshot; a zone without a snapshot gives
    the empty record. *)
Theorem lookup_found_iff (c : dsDNSRecord) (zone : string) (p : Provider) :
  (getRecordFromKnownRecords c zone p <> emptyRecord
   <-> exists rs e, knownRecords p !! zone = Some rs
                    /\ e ∈ rs /\ matches c e = true)
  /\ (forall rs, knownRecords p !! zone = Some rs ->
      getRecordFromKnownRecords c zone p <> emptyRecord ->
      getRecordFromKnownRecords c zone p ∈ rs
      /\ matches c (getRecordFromKnownRecords c zone p) = true)
  /\ (knownRecords p !! zone = None ->
      getRecordFromKnownRecords c zone p = emptyRecord).
Proof.
  unfold getRecordFromKnownRecords.
  destruct (knownRecords p !! zone) as [rs|] eqn:Hk.
  - split; [split|split].
    + intros H. exists rs, (getRecordFromKnownRecords_loop c rs).
      destruct (lookup_loop_sound c rs H) as [H1 H2]. now repeat split.
    + intros (rs' & e & [= <-] & He & M).
      now apply (lookup_loop_complete c rs e).
    + intros rs' [= <-]. apply lookup_loop_sound.
    + discriminate.
  - split; [split|split].
    + now intros H.
    + intros (rs & e & Hrs & _). discriminate.
    + discriminate.
    + reflexivity.
Qed.

(** X3: soft invalidation reports success exactly when the zone has a
    cached snapshot holding an entry with the candidate's non-zero
    identifier; when it reports failure, in particular for a candidate
    without identifier, the provider is left as it was. *)
Theorem invalidation_reports
    (record : dsDNSRecord) (zone : string) (p : Provider) :
  (snd (removeRecordFromKnownRecords record zone p) = true
   <-> exists rs e, knownRecords p !! zone = Some rs /\ e ∈ rs
                    /\ ID e = ID record /\ ID record <> 0%Z)
  /\ (snd (removeRecordFromKnownRecords record zone p) = false ->
      fst (removeRecordFromKnownRecords record zone p) = p)
  /\ (ID record = 0%Z ->
      removeRecordFromKnownRecords record zone p = (p, false)).
Proof.
  unfold removeRecordFromKnownRecords.
  destruct (knownRecords p !! zone) as [rs|] eqn:Hk.
  - destruct (removeRecordFromKnownRecords_loop record rs) as [i|] eqn:Hi.
    + destruct (remove_loop_Some _ _ _ Hi) as (e & He & Hid & Hnz).
      split; [split|split].
      * intros _. exists rs, e. repeat split; try assumption.
        apply list_elem_of_lookup. now exists i.
      * reflexivity.
      * discriminate.
      * intros Hz. contradiction.
    + split; [split|split]; try reflexivity; try discriminate.
      intros (rs' & e & [= <-] & He & Hid & Hnz).
      destruct (remove_loop_finds record rs e He Hid Hnz) as [i Hi'].
      congruence.
  - split; [split|split]; try reflexivity; try discriminate.
    intros (rs & e & Hrs & _). discriminate.
Qed.

(** X4: soft invalidation touches the first entry, in slice order, that
    carries the candidate's identifier: every entry before the position
    it rewrites has a different identifier, and the snapshot afterwards
    is the old one with that one position's identifier set to zero. *)
Theorem invalidation_hits_first
    (record : dsDNSRecord) (zone : string) (p : Provider)
    (rs : list dsDNSRecord) (i : nat) :
  knownRecords p !! zone = Some rs ->
  removeRecordFromKnownRecords_loop record rs = Some i ->
  (forall j e, (j < i)%nat -> rs !! j = Some e -> ID e <> ID record)
  /\ knownRecords (fst (removeRecordFromKnownRecords record zone p)) !! zone
     = Some (alter (fun r => set_ID r 0) i rs)
  /\ exists e, rs !! i = Some e /\ ID e = ID record.
Proof.
  intros Hk Hi. split; [now apply remove_loop_least|].
  unfold removeRecordFromKnownRecords. rewrite Hk, Hi. simpl. split.
  - apply lookup_insert_eq.
  - destruct (remove_loop_Some _ _ _ Hi) as (e & He & Hid & _).
    now exists e.
Qed.

Lemma invalidation_hits_first_witness :
  (forall j e, (j < 1)%nat ->
     [Samples.same_host_data; Samples.same_id] !! j = Some e ->
     ID e <> ID Samples.candidate)
  /\ knownRecords
       (fst (removeRecordFromKnownRecords Samples.candidate "example.com"
               Samples.cache_host_data_first)) !! "example.com"
     = Some (alter (fun r => set_ID r 0) 1
               [Samples.same_host_data; Samples.same_id])
  /\ exists e, [Samples.same_host_data; Samples.same_id] !! 1%nat = Some e
               /\ ID e = ID Samples.candidate.
Proof.
  apply (invalidation_hits_first Samples.candidate "example.com"
           Samples.cache_host_data_first
           [Samples.same_host_data; Samples.same_id] 1);
    reflexivity.
Defined.

(** * Further properties of the client *)

Section ClientMore.

Variable World : Type.
Variable transport :
  forall T, string -> string -> Request T -> World -> result T * World.

Implicit Types (st : State World) (p : Provider).

Lemma getAllDomainRecords_hit t s zone st d res w :
  zones (prov st) !! zone = Some d ->
  transport _ t s (GetDNS (zID d)) (world st) = (res, w) ->
  getAllDomainRecords World transport t s zone st
  = match res with
    | inl e => (inl e, after_call st (GetDNS (zID d)) w)
    | inr rs =>
        (inr rs,
         mkState
           (set_knownRecords (prov st) (<[zone := rs]> (knownRecords (prov st))))
           w (trace st ++ [call (GetDNS (zID d))]))
    end.
Proof.
  intros Hz Ht. unfold getAllDomainRecords, bind at 1.
  rewrite (getDomainInfo_hit World transport t s zone st d Hz).
  unfold bind at 1. rewrite (doRequest_eq World transport _ _ _ _ _ _ Ht).
  now destruct res.
Qed.

Lemma lookup_result_nonzero (c : dsDNSRecord) zone p :
  getRecordFromKnownRecords c zone p <> emptyRecord ->
  ID (getRecordFromKnownRecords c zone p) <> 0%Z
  /\ exists rs, knownRecords p !! zone = Some rs
                /\ getRecordFromKnownRecords c zone p ∈ rs.
Proof.
  unfold getRecordFromKnownRecords.
  destruct (knownRecords p !! zone) as [rs|]; [|now intros H].
  intros H. destruct (lookup_loop_sound c rs H) as [Hin M].
  split; [now apply (matches_nonzero c) | now exists rs].
Qed.

(** X5: deleting a record that the cache holds sends one DELETE for the
    zone's identifier and the identifier of the cached entry (which need
    not be the candidate's), and on success soft-invalidates an entry of
    that identifier; nothing is fetched. *)
Theorem deleteDNSRecord_cached_deletes t s zone (record : dsDNSRecord)
    st d w :
  let e := getRecordFromKnownRecords record zone (prov st) in
  zones (prov st) !! zone = Some d ->
  e <> emptyRecord ->
  transport _ t s (DeleteDNS (zID d) (ID e)) (world st) = (inr tt, w) ->
  deleteDNSRecord World transport t s zone record st
  = (inr tt,
     mkState (fst (removeRecordFromKnownRecords e zone (prov st))) w
       (trace st ++ [call (DeleteDNS (zID d) (ID e))]))
  /\ snd (removeRecordFromKnownRecords e zone (prov st)) = true
  /\ ID e <> 0%Z.
Proof.
  intros e Hz He Ht. split.
  - unfold deleteDNSRecord, bind at 1.
    rewrite (getDomainInfo_hit World transport t s zone st d Hz).
    unfold bind at 1.
    rewrite (getDNSRecord_cached World transport t s zone record st He).
    fold e. destruct (decide (emptyRecord = e)) as [E|_];
      [now contradiction He|].
    unfold bind at 1. rewrite (doRequest_eq World transport _ _ _ _ _ _ Ht).
    reflexivity.
  - destruct (lookup_result_nonzero record zone (prov st) He)
      as (Hnz & rs & Hk & Hin). fold e in Hnz, Hin.
    split; [|exact Hnz].
    unfold removeRecordFromKnownRecords. rewrite Hk.
    destruct (remove_loop_finds e rs e Hin eq_refl Hnz) as [i ->].
    reflexivity.
Qed.

(** X6: when the remote delete of a cached record fails, the error is
    returned and the cache is left as it was: the entry is not
    invalidated. *)
Theorem deleteDNSRecord_failure_keeps_cache t s zone
    (record : dsDNSRecord) st d err w :
  let e := getRecordFromKnownRecords record zone (prov st) in
  zones (prov st) !! zone = Some d ->
  e <> emptyRecord ->
  transport _ t s (DeleteDNS (zID d) (ID e)) (world st) = (inl err, w) ->
  deleteDNSRecord World transport t s zone record st
  = (inl err, mkState (prov st) w
                (trace st ++ [call (DeleteDNS (zID d) (ID e))])).
Proof.
  intros e Hz He Ht.
  unfold deleteDNSRecord, bind at 1.
  rewrite (getDomainInfo_hit World transport t s zone st d Hz).
  unfold bind at 1.
  rewrite (getDNSRecord_cached World transport t s zone record st He).
  fold e. destruct (decide (emptyRecord = e)) as [E|_];
    [now contradiction He|].
  unfold bind at 1. now rewrite (doRequest_eq World transport _ _ _ _ _ _ Ht).
Qed.

(** X7: a refresh that succeeds replaces the snapshot of its zone with
    the list received and touches no other zone's snapshot; a refresh
    that fails, at zone resolution or at the fetch, leaves every
    snapshot as it was. *)
Theorem refresh_replaces_or_keeps t s zone st :
  knownRecords (prov (snd (getAllDomainRecords World transport t s zone st)))
  = match fst (getAllDomainRecords World transport t s zone st) with
    | inr rs => <[zone := rs]> (knownRecords (prov st))
    | inl _ => knownRecords (prov st)
    end.
Proof.
  destruct (getAllDomainRecords World transport t s zone st)
    as [res st'] eqn:H. simpl.
  unfold getAllDomainRecords, bind at 1 in H.
  destruct (getDomainInfo World transport t s zone st) as [[e|d] st1] eqn:Hd;
    destruct (getDomainInfo_effect World transport _ _ _ _ _ _ Hd)
      as (Hk & _ & _).
  - injection H as <- <-. exact Hk.
  - unfold bind at 1, doRequest in H.
    destruct (transport _ t s (GetDNS (zID d)) (world st1)) as [[e|rs] w];
      unfold bind, modify, ret, after_call in H; simpl in H;
      injection H as <- <-; simpl; [exact Hk | now rewrite Hk].
Qed.

(** X8: resolving a zone changes nothing but the zone cache entry under
    that very string: other keys, the record cache and the credentials
    stay, and when resolution fails the provider is unchanged. *)
Theorem getDomainInfo_touches_own_key t s zone st :
  let out := getDomainInfo World transport t s zone st in
  (forall k, k <> zone ->
     zones (prov (snd out)) !! k = zones (prov st) !! k)
  /\ knownRecords (prov (snd out)) = knownRecords (prov st)
  /\ APIToken (prov (snd out)) = APIToken (prov st)
  /\ APISecret (prov (snd out)) = APISecret (prov st)
  /\ (forall e, fst out = inl e -> prov (snd out) = prov st).
Proof.
  intros out. subst out.
  destruct (zones (prov st) !! zone) as [d|] eqn:Hz.
  - rewrite (getDomainInfo_hit World transport t s zone st d Hz).
    now repeat split.
  - destruct (transport _ t s (GetDomains (removeFQDNTrailingDot zone))
                (world st)) as [r w] eqn:Ht.
    rewrite (getDomainInfo_miss World transport t s zone st r w Hz Ht).
    cbv zeta. destruct r as [e|[|z [|z' zs]]]; simpl;
      repeat split; try discriminate.
    intros k Hk. now apply lookup_insert_ne.
Qed.

(** X9: an update of a record that the cache does not hold posts the
    update, then fetches the zone's records once, stores them as the
    zone's snapshot and returns what the lookup finds in them. *)
Theorem updateDNSRecord_miss_refetches t s zone (record : dsDNSRecord)
    st d (res : dsDNSRecord) w1 rs w2 :
  zones (prov st) !! zone = Some d ->
  getRecordFromKnownRecords record zone (prov st) = emptyRecord ->
  transport _ t s (PostUpdate (zID d) (ID record) (reqData record))
    (world st) = (inr res, w1) ->
  transport _ t s (GetDNS (zID d)) w1 = (inr rs, w2) ->
  updateDNSRecord World transport t s zone record st
  = (inr (getRecordFromKnownRecords_loop record rs),
     mkState
       (set_knownRecords (prov st) (<[zone := rs]> (knownRecords (prov st))))
       w2
       (trace st
        ++ [call (PostUpdate (zID d) (ID record) (reqData record));
            call (GetDNS (zID d))])).
Proof.
  intros Hz Hc Hu Hg.
  unfold updateDNSRecord, bind at 1.
  rewrite (getDomainInfo_hit World transport t s zone st d Hz).
  unfold bind at 1. rewrite (doRequest_eq World transport _ _ _ _ _ _ Hu).
  set (st1 := after_call st _ w1).
  assert (Hr : getAllDomainRecords World transport t s zone st1
               = (inr rs,
                  mkState
                    (set_knownRecords (prov st1)
                       (<[zone := rs]> (knownRecords (prov st1))))
                    w2 (trace st1 ++ [call (GetDNS (zID d))])))
    by (now rewrite (getAllDomainRecords_hit t s zone st1 d (inr rs) w2)).
  rewrite (getDNSRecord_refresh_empty World transport t s zone record st1
             rs _ Hc Hr).
  unfold st1, after_call. simpl. now rewrite <- app_assoc.
Qed.

End ClientMore.

Lemma deleteDNSRecord_cached_deletes_witness :
  deleteDNSRecord _ RefServer.transport "token" "secret" "example.com"
    (RefServer.txt 0 "test1" "test1") RefServer.state1
  = (inr tt,
     mkState
       (fst (removeRecordFromKnownRecords (RefServer.txt 7 "test1" "test1")
               "example.com" (prov RefServer.state1)))
       (RefServer.mkWorld [RefServer.example_zone] [] 8)
       (trace RefServer.state1 ++ [call (DeleteDNS 1 7)]))
  /\ snd (removeRecordFromKnownRecords (RefServer.txt 7 "test1" "test1")
            "example.com" (prov RefServer.state1)) = true
  /\ 7%Z <> 0%Z.
Proof.
  apply (deleteDNSRecord_cached_deletes RefServer.World RefServer.transport
           "token" "secret" "example.com" (RefServer.txt 0 "test1" "test1")
           RefServer.state1 RefServer.example_zone
           (RefServer.mkWorld [RefServer.example_zone] [] 8));
    [reflexivity | vm_compute; discriminate | reflexivity].
Defined.

Lemma deleteDNSRecord_failure_keeps_cache_witness :
  let st := mkState (prov RefServer.state1)
              (RefServer.mkWorld [RefServer.example_zone] [] 8) [] in
  deleteDNSRecord _ RefServer.transport "token" "secret" "example.com"
    (RefServer.txt 0 "test1" "test1") st
  = (inl (ErrTransport "HTTP 404"),
     mkState (prov st) (world st) [call (DeleteDNS 1 7)]).
Proof.
  apply (deleteDNSRecord_failure_keeps_cache RefServer.World
           RefServer.transport "token" "secret" "example.com"
           (RefServer.txt 0 "test1" "test1")
           (mkState (prov RefServer.state1)
              (RefServer.mkWorld [RefServer.example_zone] [] 8) [])
           RefServer.example_zone (ErrTransport "HTTP 404")
           (RefServer.mkWorld [RefServer.example_zone] [] 8));
    [reflexivity | vm_compute; discriminate | reflexivity].
Defined.

Lemma updateDNSRecord_miss_refetches_witness :
  let st := mkState (mkProvider "token" "secret"
                       {[ "example.com" := RefServer.example_zone ]} ∅)
              RefServer.world0 [] in
  updateDNSRecord _ RefServer.transport "token" "secret" "example.com"
    Runs.modified st
  = (inr Runs.modified,
     mkState
       (set_knownRecords (prov st)
          (<["example.com" := [Runs.modified]]> (knownRecords (prov st))))
       (RefServer.mkWorld [RefServer.example_zone]
          [(1%Z, Runs.modified)] 8)
       [call (PostUpdate 1 7 Runs.modified); call (GetDNS 1)]).
Proof.
  apply (updateDNSRecord_miss_refetches RefServer.World RefServer.transport
           "token" "secret" "example.com" Runs.modified
           (mkState (mkProvider "token" "secret"
                       {[ "example.com" := RefServer.example_zone ]} ∅)
              RefServer.world0 [])
           RefServer.example_zone Runs.modified
           (RefServer.mkWorld [RefServer.example_zone]
              [(1%Z, Runs.modified)] 8)
           [Runs.modified]
           (RefServer.mkWorld [RefServer.example_zone]
              [(1%Z, Runs.modified)] 8));
    reflexivity.
Defined.

(** * What the public operations leave alone *)

Section Frame.

Variable World : Type.
Variable transport :
  forall T, string -> string -> Request T -> World -> result T * World.
Variable RR_Parse : libdns.RR -> result libdns.Record.

(** A property of the provider that survives the two writes the client
    performs for [zone]: storing a resolved zone and storing or altering
    a snapshot, both under the key [zone]. *)
Variable P : Provider -> Prop.
Variable zone : string.
Hypothesis P_zones :
  forall p d, P p -> P (set_zones p (<[zone := d]> (zones p))).
Hypothesis P_known :
  forall p rs, P p ->
    P (set_knownRecords p (<[zone := rs]> (knownRecords p))).

Local Abbreviation kp := (keeps World P).

Lemma kp_ret {A} (a : A) : kp (ret World a).
Proof. now intros st. Qed.

Lemma kp_lift {A} (r : result A) : kp (lift World r).
Proof. now intros st. Qed.

Lemma kp_gets {A} (f : Provider -> A) : kp (gets World f).
Proof. now intros st. Qed.

Lemma kp_bind {A B} (m : M World A) (f : A -> M World B) :
  kp m -> (forall a, kp (f a)) -> kp (bind World m f).
Proof.
  intros Hm Hf st HP. unfold bind. specialize (Hm st HP).
  destruct (m st) as [[e|a] st1]; simpl in *; [assumption|].
  now apply Hf.
Qed.

Lemma kp_doRequest {T} t s (r : Request T) :
  kp (doRequest World transport t s r).
Proof.
  intros st HP. unfold doRequest.
  now destruct (transport T t s r (world st)).
Qed.

Lemma kp_with_credentials {A} (f : string -> string -> M World A) :
  (forall t s, kp (f t s)) -> kp (with_credentials World f).
Proof.
  intros Hf. apply kp_bind; [apply kp_gets | intros t].
  apply kp_bind; [apply kp_gets | intros s; apply Hf].
Qed.

Lemma kp_getDomainInfo t s : kp (getDomainInfo World transport t s zone).
Proof.
  intros st HP.
  destruct (zones (prov st) !! zone) as [d|] eqn:Hz.
  - now rewrite (getDomainInfo_hit World transport t s zone st d Hz).
  - destruct (transport _ t s (GetDomains (removeFQDNTrailingDot zone))
                (world st)) as [r w] eqn:Ht.
    rewrite (getDomainInfo_miss World transport t s zone st r w Hz Ht).
    cbv zeta. destruct r as [e|[|d [|d' zs]]]; simpl; try assumption.
    now apply P_zones.
Qed.

Lemma kp_getAllDomainRecords t s :
  kp (getAllDomainRecords World transport t s zone).
Proof.
  apply kp_bind; [apply kp_getDomainInfo | intros d].
  apply kp_bind; [apply kp_doRequest | intros rs].
  apply kp_bind; [| intros _; apply kp_ret].
  intros st HP. simpl. now apply P_known.
Qed.

Lemma kp_getDNSRecord t s record :
  kp (getDNSRecord World transport t s zone record).
Proof.
  apply kp_bind; [apply kp_gets | intros r].
  destruct (decide (emptyRecord = r)); [|apply kp_ret].
  apply kp_bind; [apply kp_getAllDomainRecords | intros _; apply kp_gets].
Qed.

Lemma kp_deleteDNSRecord t s record :
  kp (deleteDNSRecord World transport t s zone record).
Proof.
  apply kp_bind; [apply kp_getDomainInfo | intros d].
  apply kp_bind; [apply kp_getDNSRecord | intros r].
  destruct (decide (emptyRecord = r)); [apply kp_ret|].
  apply kp_bind; [apply kp_doRequest | intros _].
  apply kp_bind; [| intros _; apply kp_ret].
  intros st HP. simpl. unfold removeRecordFromKnownRecords.
  destruct (knownRecords (prov st) !! zone) as [rs|]; [|exact HP].
  destruct (removeRecordFromKnownRecords_loop r rs); [|exact HP].
  simpl. now apply P_known.
Qed.

Lemma kp_createDNSRecord t s record :
  kp (createDNSRecord World transport t s zone record).
Proof.
  apply kp_bind; [apply kp_getDomainInfo | intros d].
  apply kp_bind; [apply kp_doRequest | intros r; apply kp_ret].
Qed.

Lemma kp_createOrUpdateDNSRecord t s record :
  kp (createOrUpdateDNSRecord World transport t s zone record).
Proof.
  unfold createOrUpdateDNSRecord.
  destruct (ID record =? 0)%Z; [apply kp_createDNSRecord|].
  apply kp_bind; [apply kp_getDomainInfo | intros d].
  apply kp_bind; [apply kp_doRequest | intros _; apply kp_getDNSRecord].
Qed.

Lemma kp_AppendRecords records :
  kp (AppendRecords World transport RR_Parse zone records).
Proof.
  induction records as [|r rs IH]; [apply kp_ret|]. simpl.
  apply kp_bind; [apply kp_lift | intros d].
  apply kp_bind; [| intros res].
  { apply kp_with_credentials. intros t s. apply kp_createDNSRecord. }
  apply kp_bind; [apply kp_lift | intros l].
  apply kp_bind; [exact IH | intros c; apply kp_ret].
Qed.

Lemma kp_DeleteRecords records :
  kp (DeleteRecords World transport zone records).
Proof.
  apply kp_bind; [| intros _; apply kp_ret].
  induction records as [|r rs IH]; [apply kp_ret|]. simpl.
  apply kp_bind; [apply kp_lift | intros d].
  apply kp_bind; [| intros _; exact IH].
  apply kp_with_credentials. intros t s. apply kp_deleteDNSRecord.
Qed.

Lemma kp_SetRecords records :
  kp (SetRecords World transport RR_Parse zone records).
Proof.
  apply kp_bind; [| intros l; apply kp_lift].
  induction records as [|r rs IH]; [apply kp_ret|]. simpl.
  apply kp_bind; [apply kp_lift | intros d].
  apply kp_bind; [| intros n].
  { apply kp_with_credentials. intros t s.
    apply kp_createOrUpdateDNSRecord. }
  apply kp_bind; [exact IH | intros c; apply kp_ret].
Qed.

Lemma kp_run_op (o : op) (st : State World) :
  op_zone o = zone ->
  P (prov st) -> P (prov (run_op World transport RR_Parse o st)).
Proof.
  destruct o as [z|z rs|z rs|z rs]; simpl; intros -> HP.
  - apply (kp_bind _ _
             (kp_with_credentials _
                (fun t s => kp_getAllDomainRecords t s))
             (fun rs => kp_lift _) st HP).
  - now apply kp_AppendRecords.
  - now apply kp_DeleteRecords.
  - now apply kp_SetRecords.
Qed.

End Frame.

(** X10: a public operation on one zone leaves the caches of every
    other zone alone: for any other key, the resolved zone and the
    record snapshot are what they were, whether the operation succeeded
    or failed half-way. *)
Theorem other_zones_untouched
    (World : Type)
    (transport :
       forall T, string -> string -> Request T -> World -> result T * World)
    (RR_Parse : libdns.RR -> result libdns.Record)
    (o : op) (st : State World) (k : string) :
  k <> op_zone o ->
  zones (prov (run_op World transport RR_Parse o st)) !! k
  = zones (prov st) !! k
  /\ knownRecords (prov (run_op World transport RR_Parse o st)) !! k
     = knownRecords (prov st) !! k.
Proof.
  intros Hk.
  apply (kp_run_op World transport RR_Parse
           (fun p => zones p !! k = zones (prov st) !! k
                     /\ knownRecords p !! k = knownRecords (prov st) !! k)
           (op_zone o)).
  - intros p d [H1 H2]. simpl. split; [|exact H2].
    now rewrite lookup_insert_ne.
  - intros p rs [H1 H2]. simpl. split; [exact H1|].
    now rewrite lookup_insert_ne.
  - reflexivity.
  - now split.
Qed.

Lemma other_zones_untouched_witness :
  zones (prov (run_op _ RefServer.transport RefServer.parse_flat
                 (OpGetRecords "example.org") RefServer.state1))
    !! "example.com"
  = zones (prov RefServer.state1) !! "example.com"
  /\ knownRecords (prov (run_op _ RefServer.transport RefServer.parse_flat
                           (OpGetRecords "example.org") RefServer.state1))
       !! "example.com"
     = knownRecords (prov RefServer.state1) !! "example.com".
Proof.
  apply (other_zones_untouched RefServer.World RefServer.transport
           RefServer.parse_flat (OpGetRecords "example.org")
           RefServer.state1 "example.com").
  discriminate.
Defined.

(** X11: no sequence of public operations changes the credentials the
    instance was configured with. *)
Theorem credentials_never_change
    (World : Type)
    (transport :
       forall T, string -> string -> Request T -> World -> result T * World)
    (RR_Parse : libdns.RR -> result libdns.Record)
    (ops : list op) (st : State World) :
  APIToken (prov (run_ops World transport RR_Parse ops st))
  = APIToken (prov st)
  /\ APISecret (prov (run_ops World transport RR_Parse ops st))
     = APISecret (prov st).
Proof.
  revert st. induction ops as [|o ops IH]; intros st; [now split|].
  simpl. destruct (IH (run_op World transport RR_Parse o st)) as [-> ->].
  apply (kp_run_op World transport RR_Parse
           (fun p => APIToken p = APIToken (prov st)
                     /\ APISecret p = APISecret (prov st))
           (op_zone o)); try reflexivity; try (now intros p x H);
    now split.
Qed.

(** * What the operations send *)

Section Traces.

Variable World : Type.
Variable transport :
  forall T, string -> string -> Request T -> World -> result T * World.
Variable RR_Parse : libdns.RR -> result libdns.Record.

Implicit Types (Q : Call -> bool).

Lemma emits_ret Q {A} (a : A) : emits World Q (ret World a).
Proof. intros st. exists []. now rewrite app_nil_r. Qed.

Lemma emits_lift Q {A} (r : result A) : emits World Q (lift World r).
Proof. intros st. exists []. now rewrite app_nil_r. Qed.

Lemma emits_gets Q {A} (f : Provider -> A) : emits World Q (gets World f).
Proof. intros st. exists []. now rewrite app_nil_r. Qed.

Lemma emits_modify Q (f : Provider -> Provider) :
  emits World Q (modify World f).
Proof. intros st. exists []. simpl. now rewrite app_nil_r. Qed.

Lemma emits_bind Q {A B} (m : M World A) (f : A -> M World B) :
  emits World Q m -> (forall a, emits World Q (f a)) ->
  emits World Q (bind World m f).
Proof.
  intros Hm Hf st. unfold bind. destruct (Hm st) as (c1 & H1 & Q1).
  destruct (m st) as [[e|a] st1]; simpl in *; [now exists c1|].
  destruct (Hf a st1) as (c2 & H2 & Q2).
  exists (c1 ++ c2)%list. split.
  - now rewrite H2, H1, app_assoc.
  - rewrite forallb_app. now rewrite Q1, Q2.
Qed.

(** A continuation entered only with the value of a pure step. *)
Lemma emits_bind_lift Q {A B} (r : result A) (f : A -> M World B) :
  (forall a, r = inr a -> emits World Q (f a)) ->
  emits World Q (bind World (lift World r) f).
Proof.
  intros Hf st. unfold bind, lift. destruct r as [e|a]; simpl.
  - exists []. now rewrite app_nil_r.
  - now apply Hf.
Qed.

Lemma emits_doRequest Q {T} t s (r : Request T) :
  Q (call r) = true -> emits World Q (doRequest World transport t s r).
Proof.
  intros HQ st. unfold doRequest.
  destruct (transport T t s r (world st)) as [res w]. simpl.
  exists [call r]. simpl. now rewrite HQ.
Qed.

Lemma emits_weaken Q Q' {A} (m : M World A) :
  (forall c, Q c = true -> Q' c = true) ->
  emits World Q m -> emits World Q' m.
Proof.
  intros HQ Hm st. destruct (Hm st) as (calls & H1 & H2).
  exists calls. split; [exact H1|].
  rewrite forallb_forall in *. auto.
Qed.

Lemma emits_with_credentials Q {A} (f : string -> string -> M World A) :
  (forall t s, emits World Q (f t s)) ->
  emits World Q (with_credentials World f).
Proof.
  intros Hf. apply emits_bind; [apply emits_gets | intros t].
  apply emits_bind; [apply emits_gets | intros s; apply Hf].
Qed.

Lemma emits_getDomainInfo t s zone :
  emits World is_get (getDomainInfo World transport t s zone).
Proof.
  apply emits_bind; [apply emits_gets | intros [d|]]; [apply emits_ret|].
  apply emits_bind; [now apply emits_doRequest | intros zs].
  destruct zs as [|z [|z' zs]]; intros st; exists []; simpl;
    now rewrite app_nil_r.
Qed.

Lemma emits_getAllDomainRecords t s zone :
  emits World is_get (getAllDomainRecords World transport t s zone).
Proof.
  apply emits_bind; [apply emits_getDomainInfo | intros d].
  apply emits_bind; [now apply emits_doRequest | intros rs].
  apply emits_bind; [apply emits_modify | intros _; apply emits_ret].
Qed.

Lemma emits_getDNSRecord t s zone record :
  emits World is_get (getDNSRecord World transport t s zone record).
Proof.
  apply emits_bind; [apply emits_gets | intros r].
  destruct (decide (emptyRecord = r)); [|apply emits_ret].
  apply emits_bind; [apply emits_getAllDomainRecords | intros _].
  apply emits_gets.
Qed.

Lemma emits_createDNSRecord t s zone record :
  emits World (fun c => is_get c || is_create c)
    (createDNSRecord World transport t s zone record).
Proof.
  apply emits_bind; [| intros d].
  - apply (emits_weaken is_get); [now intros c -> |].
    apply emits_getDomainInfo.
  - apply emits_bind; [now apply emits_doRequest | intros r].
    apply emits_ret.
Qed.

Lemma emits_deleteDNSRecord t s zone record :
  emits World (fun c => is_get c || is_delete c)
    (deleteDNSRecord World transport t s zone record).
Proof.
  apply emits_bind; [| intros d].
  { apply (emits_weaken is_get); [now intros c -> |].
    apply emits_getDomainInfo. }
  apply emits_bind; [| intros r].
  { apply (emits_weaken is_get); [now intros c -> |].
    apply emits_getDNSRecord. }
  destruct (decide (emptyRecord = r)); [apply emits_ret|].
  apply emits_bind; [now apply emits_doRequest | intros _].
  apply emits_bind; [apply emits_modify | intros _; apply emits_ret].
Qed.

(** X12: reading a zone only ever sends GET requests; appending sends
    GETs and creates, never an update or a delete; deleting sends GETs
    and DELETEs, never a POST.  In each case the requests are added to
    the trace, whatever the outcome. *)
Theorem public_operations_request_kinds (zone : string)
    (records : list libdns.Record) :
  emits World is_get (GetRecords World transport RR_Parse zone)
  /\ emits World (fun c => is_get c || is_create c)
       (AppendRecords World transport RR_Parse zone records)
  /\ emits World (fun c => is_get c || is_delete c)
       (DeleteRecords World transport zone records).
Proof.
  split; [|split].
  - apply emits_bind; [| intros rs; apply emits_lift].
    apply emits_with_credentials. intros t s.
    apply emits_getAllDomainRecords.
  - induction records as [|r rs IH]; [apply emits_ret|]. simpl.
    apply emits_bind; [apply emits_lift | intros d].
    apply emits_bind; [| intros res].
    { apply emits_with_credentials. intros t s.
      apply emits_createDNSRecord. }
    apply emits_bind; [apply emits_lift | intros l].
    apply emits_bind; [exact IH | intros c; apply emits_ret].
  - apply emits_bind; [| intros _; apply emits_ret].
    induction records as [|r rs IH]; [apply emits_ret|]. simpl.
    apply emits_bind; [apply emits_lift | intros d].
    apply emits_bind; [| intros _; exact IH].
    apply emits_with_credentials. intros t s. apply emits_deleteDNSRecord.
Qed.

(** X13: an upsert never sends an update: the forward mapping gives
    every record identifier zero, so each one takes the create path, and
    the requests of [SetRecords] are GETs and creates only, with no
    update and no delete among them. *)
Theorem SetRecords_only_creates (zone : string)
    (records : list libdns.Record) (st : State World) :
  exists calls : list Call,
    trace (snd (SetRecords World transport RR_Parse zone records st))
    = (trace st ++ calls)%list
    /\ forallb (fun c => is_get c || is_create c) calls = true
    /\ existsb is_update calls = false
    /\ existsb is_delete calls = false.
Proof.
  assert (H : emits World (fun c => is_get c || is_create c)
                (SetRecords World transport RR_Parse zone records)).
  { apply emits_bind; [| intros l; apply emits_lift].
    induction records as [|r rs IH]; [apply emits_ret|]. simpl.
    apply emits_bind_lift. intros d Hd.
    apply emits_bind; [| intros n].
    { apply emits_with_credentials. intros t s.
      rewrite (createOrUpdate_of_converted World transport t s zone r d Hd).
      apply emits_createDNSRecord. }
    apply emits_bind; [exact IH | intros c; apply emits_ret]. }
  destruct (H st) as (calls & H1 & H2). exists calls.
  split; [exact H1|]. split; [exact H2|].
  clear H1. induction calls as [|c calls IH]; [now split|].
  simpl in H2. apply andb_true_iff in H2 as [Hc H2].
  destruct (IH H2) as [IH1 IH2]. simpl. rewrite IH1, IH2.
  destruct c as [T r]. destruct r; simpl in *; try discriminate;
    now split.
Qed.

End Traces.

(** * Batches *)

Section Batches.

Variable World : Type.
Variable transport :
  forall T, string -> string -> Request T -> World -> result T * World.
Variable RR_Parse : libdns.RR -> result libdns.Record.

Implicit Types (st : State World).

Local Abbreviation create_with st zone d :=
  (createDNSRecord World transport (APIToken (prov st)) (APISecret (prov st))
     zone d st).

Lemma with_credentials_eq {A} (f : string -> string -> M World A) st :
  with_credentials World f st
  = f (APIToken (prov st)) (APISecret (prov st)) st.
Proof. reflexivity. Qed.

Lemma forward_total (r : libdns.Record) :
  exists d, libdnsRecordTodsDNSRecord r = inr d /\ ID d = 0%Z.
Proof. destruct r; eexists; split; reflexivity. Qed.

(** One step of the append loop. *)
Lemma AppendRecords_cons zone r rest st d :
  libdnsRecordTodsDNSRecord r = inr d ->
  AppendRecords World transport RR_Parse zone (r :: rest) st
  = match create_with st zone d with
    | (inl e, st1) => (inl e, st1)
    | (inr res, st1) =>
        match libdnsRecord RR_Parse res with
        | inl e => (inl (ErrParsingRecord e), st1)
        | inr g =>
            match AppendRecords World transport RR_Parse zone rest st1 with
            | (inl e, st2) => (inl e, st2)
            | (inr gs, st2) => (inr (g :: gs), st2)
            end
        end
    end.
Proof.
  intros Hd. simpl. unfold bind at 1, lift at 1. rewrite Hd.
  unfold bind at 1. rewrite with_credentials_eq.
  destruct (create_with st zone d) as [[e|res] st1]; [reflexivity|].
  unfold bind at 1, lift at 1.
  destruct (libdnsRecord RR_Parse res) as [e|g]; [reflexivity|].
  unfold bind at 1.
  now destruct (AppendRecords World transport RR_Parse zone rest st1)
    as [[e|gs] st2].
Qed.

(** One step of the first loop of the upsert. *)
Lemma SetRecords_loop_cons zone r rest st d :
  libdnsRecordTodsDNSRecord r = inr d ->
  SetRecords_loop World transport zone (r :: rest) st
  = match create_with st zone d with
    | (inl e, st1) => (inl e, st1)
    | (inr res, st1) =>
        match SetRecords_loop World transport zone rest st1 with
        | (inl e, st2) => (inl e, st2)
        | (inr ress, st2) => (inr (res :: ress), st2)
        end
    end.
Proof.
  intros Hd. simpl. unfold bind at 1, lift at 1. rewrite Hd.
  unfold bind at 1. rewrite with_credentials_eq.
  rewrite (createOrUpdate_of_converted World transport _ _ zone r d Hd).
  destruct (create_with st zone d) as [[e|res] st1]; [reflexivity|].
  unfold bind at 1.
  now destruct (SetRecords_loop World transport zone rest st1)
    as [[e|ress] st2].
Qed.

Lemma SetRecords_eq zone records st :
  SetRecords World transport RR_Parse zone records st
  = match SetRecords_loop World transport zone records st with
    | (inl e, st1) => (inl e, st1)
    | (inr ress, st1) => (parse_all RR_Parse ress, st1)
    end.
Proof.
  unfold SetRecords, bind.
  now destruct (SetRecords_loop World transport zone records st)
    as [[e|ress] st1].
Qed.

Lemma parse_all_cons (r : dsDNSRecord) rs :
  parse_all RR_Parse (r :: rs)
  = match libdnsRecord RR_Parse r with
    | inl e => inl (ErrParsingRecord e)
    | inr g => match parse_all RR_Parse rs with
               | inl e => inl e
               | inr gs => inr (g :: gs)
               end
    end.
Proof. reflexivity. Qed.

Lemma append_of_set zone records :
  forall st ress st' gs,
    SetRecords_loop World transport zone records st = (inr ress, st') ->
    parse_all RR_Parse ress = inr gs ->
    AppendRecords World transport RR_Parse zone records st = (inr gs, st').
Proof.
  induction records as [|r rest IH]; intros st ress st' gs Hl Hp.
  - injection Hl as <- <-. now injection Hp as <-.
  - destruct (forward_total r) as (d & Hd & _).
    rewrite (SetRecords_loop_cons zone r rest st d Hd) in Hl.
    rewrite (AppendRecords_cons zone r rest st d Hd).
    destruct (create_with st zone d) as [[e|res] st1]; [discriminate|].
    destruct (SetRecords_loop World transport zone rest st1)
      as [[e|ress'] st2] eqn:Hrest; [discriminate|].
    injection Hl as <- <-. rewrite parse_all_cons in Hp.
    destruct (libdnsRecord RR_Parse res) as [e|g]; [discriminate|].
    destruct (parse_all RR_Parse ress') as [e|gs'] eqn:Hp'; [discriminate|].
    injection Hp as <-.
    now rewrite (IH st1 ress' st2 gs' Hrest Hp').
Qed.

Lemma set_of_append zone records :
  forall st gs st',
    AppendRecords World transport RR_Parse zone records st = (inr gs, st') ->
    exists ress,
      SetRecords_loop World transport zone records st = (inr ress, st')
      /\ parse_all RR_Parse ress = inr gs.
Proof.
  induction records as [|r rest IH]; intros st gs st' Ha.
  - injection Ha as <- <-. now exists [].
  - destruct (forward_total r) as (d & Hd & _).
    rewrite (AppendRecords_cons zone r rest st d Hd) in Ha.
    rewrite (SetRecords_loop_cons zone r rest st d Hd).
    destruct (create_with st zone d) as [[e|res] st1]; [discriminate|].
    destruct (libdnsRecord RR_Parse res) as [e|g] eqn:Hg; [discriminate|].
    destruct (AppendRecords World transport RR_Parse zone rest st1)
      as [[e|gs'] st2] eqn:Hrest; [discriminate|].
    injection Ha as <- <-.
    destruct (IH st1 gs' st2 Hrest) as (ress & Hl & Hp).
    exists (res :: ress). rewrite Hl. split; [reflexivity|].
    now rewrite parse_all_cons, Hg, Hp.
Qed.

(** X14: where it succeeds, an upsert is an append: [SetRecords]
    returns a list and leaves a state exactly when [AppendRecords] on
    the same input returns that list and leaves that state. *)
Theorem SetRecords_succeeds_as_AppendRecords (zone : string)
    (records : list libdns.Record) st (gs : list libdns.Record) st' :
  SetRecords World transport RR_Parse zone records st = (inr gs, st')
  <-> AppendRecords World transport RR_Parse zone records st = (inr gs, st').
Proof.
  rewrite SetRecords_eq. split.
  - destruct (SetRecords_loop World transport zone records st)
      as [[e|ress] st1] eqn:Hl; [discriminate|].
    intros [= Hp <-]. now apply (append_of_set zone records st ress).
  - intros Ha. destruct (set_of_append zone records st gs st' Ha)
      as (ress & -> & ->). reflexivity.
Qed.

Lemma parse_all_Forall2 (rs : list dsDNSRecord) (out : list libdns.Record) :
  parse_all RR_Parse rs = inr out <->
  Forall2 (fun r o => libdnsRecord RR_Parse r = inr o) rs out.
Proof.
  revert out; induction rs as [|r rs IH]; intros out.
  - simpl. split.
    + intros [= <-]. constructor.
    + intros H. now inversion H.
  - rewrite parse_all_cons. split.
    + destruct (libdnsRecord RR_Parse r) as [e|g] eqn:Hg; [discriminate|].
      destruct (parse_all RR_Parse rs) as [e|gs] eqn:Hp; [discriminate|].
      intros [= <-]. constructor; [exact Hg | now apply IH].
    + intros H. inversion H as [|? o ? outs Hg Hrest]; subst.
      rewrite Hg. apply IH in Hrest. now rewrite Hrest.
Qed.

(** X15: a successful listing returns the zone's new cached snapshot
    mapped record by record, in order: as many results as the remote
    end sent records, each the reverse mapping of the record at its
    position. *)
Theorem GetRecords_maps_snapshot (zone : string) st
    (out : list libdns.Record) st' :
  GetRecords World transport RR_Parse zone st = (inr out, st') ->
  exists rs : list dsDNSRecord,
    knownRecords (prov st') !! zone = Some rs
    /\ length out = length rs
    /\ Forall2 (fun r o => libdnsRecord RR_Parse r = inr o) rs out.
Proof.
  unfold GetRecords, bind at 1. rewrite with_credentials_eq.
  destruct (getAllDomainRecords World transport _ _ zone st)
    as [[e|rs] st1] eqn:Hr; [discriminate|].
  unfold lift. intros [= Hp <-]. exists rs.
  destruct (getAllDomainRecords_effect World transport _ _ _ _ _ _ Hr)
    as [Hk _].
  apply parse_all_Forall2 in Hp.
  repeat split; [exact Hk | symmetry; now apply (Forall2_length _ _ _ Hp)
                 | exact Hp].
Qed.

(** X16: a listing fails as a whole when one record of the fetched set
    does not map, with the error of the first such record, although the
    fetched set has by then replaced the zone's snapshot. *)
Theorem GetRecords_fails_on_first_bad_record (zone : string) st
    (good : list dsDNSRecord) (bad : dsDNSRecord)
    (rest : list dsDNSRecord) (e : error) st' :
  getAllDomainRecords World transport (APIToken (prov st))
    (APISecret (prov st)) zone st = (inr (good ++ bad :: rest)%list, st') ->
  Forall (fun r => exists o, libdnsRecord RR_Parse r = inr o) good ->
  libdnsRecord RR_Parse bad = inl e ->
  GetRecords World transport RR_Parse zone st
  = (inl (ErrParsingRecord e), st')
  /\ knownRecords (prov st') !! zone = Some (good ++ bad :: rest)%list.
Proof.
  intros Hr Hgood Hbad. split.
  - unfold GetRecords, bind at 1. rewrite with_credentials_eq, Hr.
    unfold lift. f_equal. clear Hr.
    induction Hgood as [|r good [o Ho] _ IH].
    + simpl. now rewrite Hbad.
    + rewrite <- app_comm_cons, parse_all_cons, Ho. now rewrite IH.
  - now destruct (getAllDomainRecords_effect World transport _ _ _ _ _ _ Hr).
Qed.

(** X17: an append stops at the first record whose create fails: when
    the records before it went through and its create is refused, the
    batch returns that error in the state that create left, whatever
    records follow, so none of them is submitted. *)
Theorem AppendRecords_stops_at_first_failure (zone : string)
    (done : list libdns.Record) (r : libdns.Record)
    (rest : list libdns.Record) st (out : list libdns.Record) st1
    (d : dsDNSRecord) (e : error) st2 :
  AppendRecords World transport RR_Parse zone done st = (inr out, st1) ->
  libdnsRecordTodsDNSRecord r = inr d ->
  create_with st1 zone d = (inl e, st2) ->
  AppendRecords World transport RR_Parse zone (done ++ r :: rest)%list st
  = (inl e, st2).
Proof.
  revert st out. induction done as [|x done IH]; intros st out Ha Hd Hc.
  - injection Ha as <- <-. simpl app.
    rewrite (AppendRecords_cons zone r rest st d Hd). now rewrite Hc.
  - destruct (forward_total x) as (dx & Hdx & _).
    rewrite (AppendRecords_cons zone x done st dx Hdx) in Ha.
    rewrite <- app_comm_cons.
    rewrite (AppendRecords_cons zone x _ st dx Hdx).
    destruct (create_with st zone dx) as [[e'|res] sta]; [discriminate|].
    destruct (libdnsRecord RR_Parse res) as [e'|g]; [discriminate|].
    destruct (AppendRecords World transport RR_Parse zone done sta)
      as [[e'|gs] stb] eqn:Hrest; [discriminate|].
    injection Ha as <- <-.
    now rewrite (IH sta gs Hrest Hd Hc).
Qed.

Lemma createDNSRecord_known t s zone record st :
  knownRecords (prov (snd (createDNSRecord World transport t s zone record st)))
  = knownRecords (prov st).
Proof.
  unfold createDNSRecord, bind at 1.
  destruct (getDomainInfo World transport t s zone st) as [[e|d] st1] eqn:Hd;
    destruct (getDomainInfo_effect World transport _ _ _ _ _ _ Hd)
      as (Hk & _ & _); [exact Hk|].
  unfold bind, doRequest.
  now destruct (transport _ t s _ (world st1)) as [[e|res] w].
Qed.

(** X18: an append never writes the record cache, and when it succeeds
    it returns one record per input record: what it created is not in
    the cache until the zone is fetched again. *)
Theorem AppendRecords_leaves_cache (zone : string)
    (records : list libdns.Record) st :
  knownRecords
    (prov (snd (AppendRecords World transport RR_Parse zone records st)))
  = knownRecords (prov st)
  /\ forall out,
       fst (AppendRecords World transport RR_Parse zone records st) = inr out ->
       length out = length records.
Proof.
  revert st. induction records as [|r rest IH]; intros st.
  - split; [reflexivity | now intros out [= <-]].
  - destruct (forward_total r) as (d & Hd & _).
    rewrite (AppendRecords_cons zone r rest st d Hd).
    pose proof (createDNSRecord_known (APIToken (prov st))
                  (APISecret (prov st)) zone d st) as Hk.
    destruct (create_with st zone d) as [[e|res] st1]; simpl in Hk;
      [now split|].
    destruct (libdnsRecord RR_Parse res) as [e|g]; [now split|].
    destruct (IH st1) as [IH1 IH2].
    destruct (AppendRecords World transport RR_Parse zone rest st1)
      as [[e|gs] st2]; simpl in *.
    + split; [congruence | discriminate].
    + split; [congruence|]. intros out [= <-]. simpl.
      f_equal. now apply IH2.
Qed.

End Batches.

Lemma GetRecords_maps_snapshot_witness :
  exists rs : list dsDNSRecord,
    knownRecords (prov RefServer.state1) !! "example.com" = Some rs
    /\ length [libdns.RecRR Samples.txt_flat] = length rs
    /\ Forall2 (fun r o => libdnsRecord RefServer.parse_flat r = inr o) rs
         [libdns.RecRR Samples.txt_flat].
Proof.
  apply (GetRecords_maps_snapshot RefServer.World RefServer.transport
           RefServer.parse_flat "example.com" RefServer.state0
           [libdns.RecRR Samples.txt_flat] RefServer.state1).
  vm_compute. reflexivity.
Defined.

Lemma GetRecords_fails_on_first_bad_record_witness :
  let st' := snd (getAllDomainRecords _ RefServer.transport "token" "secret"
                    "example.com" Runs.state_bad) in
  GetRecords _ RefServer.transport RefServer.parse_flat "example.com"
    Runs.state_bad
  = (inl (ErrParsingRecord (ErrInvalidPriority "high" strconv.ErrSyntax)), st')
  /\ knownRecords (prov st') !! "example.com"
     = Some ([RefServer.txt 7 "test1" "test1"] ++ Runs.bad_mx :: [])%list.
Proof.
  apply (GetRecords_fails_on_first_bad_record RefServer.World
           RefServer.transport RefServer.parse_flat "example.com"
           Runs.state_bad [RefServer.txt 7 "test1" "test1"] Runs.bad_mx []
           (ErrInvalidPriority "high" strconv.ErrSyntax)
           (snd (getAllDomainRecords _ RefServer.transport "token" "secret"
                   "example.com" Runs.state_bad))).
  - vm_compute. reflexivity.
  - repeat constructor. eexists. reflexivity.
  - reflexivity.
Defined.

Lemma AppendRecords_stops_at_first_failure_witness :
  AppendRecords _ RefServer.transport RefServer.parse_flat "missing.org"
    ([] ++ libdns.RecRR Samples.txt_flat :: Runs.to_append)%list
    RefServer.state0
  = (inl (ErrZoneCount 0 "missing.org"),
     after_call RefServer.state0 (GetDomains "missing.org") RefServer.world0).
Proof.
  apply (AppendRecords_stops_at_first_failure RefServer.World
           RefServer.transport RefServer.parse_flat "missing.org" []
           (libdns.RecRR Samples.txt_flat) Runs.to_append RefServer.state0
           [] RefServer.state0 (RefServer.txt 0 "test1" "test1"));
    reflexivity.
Defined.

(** * Further properties of the codec and of name canonicalization *)

Lemma digit_of_range (c : ascii) (d : Z) :
  strconv.digit_of c = Some d -> (0 <= d <= 9)%Z.
Proof.
  unfold strconv.digit_of.
  destruct ((48 <=? nat_of_ascii c)%nat && (nat_of_ascii c <=? 57)%nat)
    eqn:H; [|discriminate].
  apply andb_true_iff in H as [H1 H2].
  apply Nat.leb_le in H1, H2. intros [= <-]. lia.
Qed.

Lemma parse_loop_range (maxVal : Z) (s : string) (n v : Z) :
  (0 <= n <= maxVal)%Z ->
  strconv.parse_loop maxVal s n = inr v -> (0 <= v <= maxVal)%Z.
Proof.
  revert n; induction s as [|c s IH]; intros n Hn; simpl.
  - now intros [= <-].
  - destruct (strconv.digit_of c) as [d|] eqn:Hd; [|discriminate].
    apply digit_of_range in Hd.
    destruct (Z.ltb_spec maxVal (n * 10 + d)) as [Hlt|Hle]; [discriminate|].
    apply IH. lia.
Qed.

Lemma ParseUint16_range (s : string) (v : Z) :
  strconv.ParseUint16 s = inr v -> (0 <= v <= 65535)%Z.
Proof.
  destruct s as [|c s]; [discriminate|].
  apply parse_loop_range. lia.
Qed.

(** X19: for the two structured types the reverse mapping returns a
    record of that kind whose preference, or priority, weight and port,
    lie between 0 and 65535, or else an error that carries the raw text
    of the first field that did not parse (priority, then weight, then
    port) or the host that has no "."; the external parser is not
    consulted. *)
Theorem libdnsRecord_structured_outcomes
    (parse : libdns.RR -> result libdns.Record) (r : dsDNSRecord) :
  Type_ r = "MX" \/ Type_ r = "SRV" ->
  match libdnsRecord parse r with
  | inr (libdns.RecMX m) =>
      Type_ r = "MX" /\ (0 <= libdns.MX_Preference m <= 65535)%Z
      /\ strconv.ParseUint16 (Priority r) = inr (libdns.MX_Preference m)
  | inr (libdns.RecSRV s) =>
      Type_ r = "SRV"
      /\ (0 <= libdns.SRV_Priority s <= 65535)%Z
      /\ (0 <= libdns.SRV_Weight s <= 65535)%Z
      /\ (0 <= libdns.SRV_Port s <= 65535)%Z
  | inr _ => False
  | inl (ErrInvalidPriority raw _) => raw = Priority r
  | inl (ErrInvalidWeight raw _) =>
      Type_ r = "SRV" /\ raw = Weight r
      /\ exists p, strconv.ParseUint16 (Priority r) = inr p
  | inl (ErrInvalidPort raw _) =>
      Type_ r = "SRV" /\ raw = Port r
      /\ (exists p, strconv.ParseUint16 (Priority r) = inr p)
      /\ exists w, strconv.ParseUint16 (Weight r) = inr w
  | inl (ErrSRVName host) =>
      Type_ r = "SRV" /\ host = Host r
      /\ strings.IndexByte (Host r) "." = None
  | inl _ => False
  end.
Proof.
  intros [HT|HT]; unfold libdnsRecord; rewrite HT.
  - change (String.eqb "MX" "MX") with true. cbv iota.
    destruct (strconv.ParseUint16 (Priority r)) as [e|p] eqn:Hp;
      [reflexivity|].
    repeat split; try reflexivity; now apply (ParseUint16_range (Priority r)).
  - change (String.eqb "SRV" "MX") with false.
    change (String.eqb "SRV" "SRV") with true. cbv iota.
    destruct (strconv.ParseUint16 (Priority r)) as [e|p] eqn:Hp;
      [reflexivity|].
    destruct (strconv.ParseUint16 (Weight r)) as [e|w] eqn:Hw;
      [repeat split; eauto|].
    destruct (strconv.ParseUint16 (Port r)) as [e|q] eqn:Hq;
      [repeat split; eauto|].
    simpl. destruct (strings.IndexByte (Host r) ".") as [m|] eqn:Hi.
    + simpl. repeat split;
        first [ now apply (ParseUint16_range (Priority r))
              | now apply (ParseUint16_range (Weight r))
              | now apply (ParseUint16_range (Port r)) ].
    + now repeat split.
Qed.

Lemma libdnsRecord_structured_outcomes_witness :
  match libdnsRecord RefServer.parse_flat Runs.bad_mx with
  | inl (ErrInvalidPriority raw _) => raw = "high"
  | _ => False
  end.
Proof.
  exact (libdnsRecord_structured_outcomes RefServer.parse_flat Runs.bad_mx
           (or_introl eq_refl)).
Defined.

Section NormalizeMore.

Lemma app_assoc_string (a b c : string) : (a ++ b) ++ c = a ++ b ++ c.
Proof.
  induction a as [|x a IH]; [reflexivity|].
  rewrite !app_cons. now rewrite IH.
Qed.

Lemma HasSuffix_dot_cons (c : ascii) (s : string) :
  s <> "" -> strings.HasSuffix (String c s) "." = strings.HasSuffix s ".".
Proof.
  intros Hs. destruct s as [|x s]; [contradiction|].
  unfold strings.HasSuffix, strings.slice. simpl String.length.
  replace (S (S (String.length s)) - 1)%nat with (S (String.length s))
    by lia.
  replace (S (S (String.length s)) - S (String.length s))%nat with 1%nat
    by lia.
  replace (S (String.length s) - 1)%nat with (String.length s) by lia.
  replace (S (String.length s) - String.length s)%nat with 1%nat by lia.
  reflexivity.
Qed.

Lemma HasSuffix_dot_app (a z : string) :
  z <> "" -> strings.HasSuffix (a ++ z) "." = strings.HasSuffix z ".".
Proof.
  intros Hz. induction a as [|c a IH]; [reflexivity|].
  rewrite app_cons, HasSuffix_dot_cons; [exact IH|].
  destruct a as [|x a]; [now rewrite app_nil | now rewrite app_cons].
Qed.

Lemma TrimSuffix_of_empty (z : string) : strings.TrimSuffix "" z = "".
Proof. unfold strings.TrimSuffix. now destruct (strings.HasSuffix "" z). Qed.

Lemma TrimSuffix_at (z : string) :
  strings.TrimSuffix "@" z = "@" \/ strings.TrimSuffix "@" z = "".
Proof.
  unfold strings.TrimSuffix.
  destruct (strings.HasSuffix "@" z); [|now left].
  unfold strings.slice. simpl String.length.
  destruct (String.length z) as [|n]; [now left | now right].
Qed.

End NormalizeMore.

(** X20: the zone apex is always written "@": the zone name itself,
    the zone name with one trailing dot added to its dot-stripped form,
    the empty name and the name "@" all canonicalize to "@", whatever
    the zone. *)
Theorem normalizeRecordName_apex (zone : string) :
  normalizeRecordName zone zone = "@"
  /\ normalizeRecordName (removeFQDNTrailingDot zone ++ ".") zone = "@"
  /\ normalizeRecordName "" zone = "@"
  /\ normalizeRecordName "@" zone = "@".
Proof.
  assert (Hz : forall n,
             removeFQDNTrailingDot n = removeFQDNTrailingDot zone ->
             normalizeRecordName n zone = "@").
  { intros n Hn. unfold normalizeRecordName. rewrite Hn.
    rewrite <- (app_nil (removeFQDNTrailingDot zone)) at 1.
    now rewrite TrimSuffix_app. }
  split; [now apply Hz|]. split; [|split].
  - apply Hz. unfold removeFQDNTrailingDot at 1. apply TrimSuffix_app.
  - unfold normalizeRecordName.
    change (removeFQDNTrailingDot "") with "".
    now rewrite TrimSuffix_of_empty.
  - unfold normalizeRecordName.
    change (removeFQDNTrailingDot "@") with "@".
    now destruct (TrimSuffix_at (removeFQDNTrailingDot zone)) as [-> | ->].
Qed.

(** X21: for a zone whose dot-stripped name is not empty and does not
    itself end in a dot, a name written as label, dot, zone, with or
    without a final dot, canonicalizes to the label, whatever the label
    is. *)
Theorem normalizeRecordName_absolute_forms (label zone : string) :
  removeFQDNTrailingDot zone <> "" ->
  strings.HasSuffix (removeFQDNTrailingDot zone) "." = false ->
  normalizeRecordName (label ++ "." ++ removeFQDNTrailingDot zone) zone
  = label
  /\ normalizeRecordName
       (label ++ "." ++ removeFQDNTrailingDot zone ++ ".") zone
     = label.
Proof.
  intros Hne Hdot. set (z := removeFQDNTrailingDot zone) in *.
  assert (Hcore : strings.TrimSuffix ((label ++ ".") ++ z) z = label ++ ".")
    by apply TrimSuffix_app.
  assert (Hfin : forall n,
             removeFQDNTrailingDot n = (label ++ ".") ++ z ->
             normalizeRecordName n zone = label).
  { intros n Hn. unfold normalizeRecordName. rewrite Hn. fold z.
    rewrite Hcore.
    destruct (String.eqb_spec (label ++ ".") "") as [E|_].
    - apply (f_equal String.length) in E. rewrite length_app in E.
      simpl in E. lia.
    - unfold removeFQDNTrailingDot. apply TrimSuffix_app. }
  split; apply Hfin.
  - rewrite <- app_assoc_string. unfold removeFQDNTrailingDot.
    apply TrimSuffix_no. now rewrite HasSuffix_dot_app.
  - rewrite <- (app_assoc_string label "." (z ++ ".")).
    rewrite <- (app_assoc_string (label ++ ".") z ".").
    unfold removeFQDNTrailingDot. apply TrimSuffix_app.
Qed.

Lemma normalizeRecordName_absolute_forms_witness :
  normalizeRecordName ("_acme-challenge.www" ++ "." ++ "example.com")
    "example.com." = "_acme-challenge.www"
  /\ normalizeRecordName
       ("_acme-challenge.www" ++ "." ++ "example.com" ++ ".")
       "example.com." = "_acme-challenge.www".
Proof.
  apply (normalizeRecordName_absolute_forms "_acme-challenge.www"
           "example.com."); [discriminate | reflexivity].
Defined.

(** * Identity resolution and request bodies *)

Section Resolution.

Variable World : Type.
Variable transport :
  forall T, string -> string -> Request T -> World -> result T * World.
Variable RR_Parse : libdns.RR -> result libdns.Record.

Lemma lookup_provider_sound (c : dsDNSRecord) (zone : string) (p : Provider) :
  getRecordFromKnownRecords c zone p <> emptyRecord ->
  ID (getRecordFromKnownRecords c zone p) <> 0%Z
  /\ matches c (getRecordFromKnownRecords c zone p) = true
  /\ exists rs, knownRecords p !! zone = Some rs
                /\ getRecordFromKnownRecords c zone p ∈ rs.
Proof.
  unfold getRecordFromKnownRecords.
  destruct (knownRecords p !! zone) as [rs|]; [|now intros H].
  intros H. destruct (lookup_loop_sound c rs H) as [Hin Hm].
  split; [now apply (matches_nonzero c)|]. split; [exact Hm|].
  now exists rs.
Qed.

(** X22: what identity resolution returns is never a tombstone and is
    never invented: a successful [getDNSRecord] gives the empty record,
    or an entry with a non-zero identifier that matches the candidate
    and is held, at that moment, in the zone's cached snapshot. *)
Theorem getDNSRecord_returns_cached_entry (t s zone : string)
    (record : dsDNSRecord) (st : State World) :
  match getDNSRecord World transport t s zone record st with
  | (inr r, st') =>
      r = emptyRecord
      \/ (ID r <> 0%Z /\ matches record r = true
          /\ exists rs, knownRecords (prov st') !! zone = Some rs /\ r ∈ rs)
  | (inl _, st') =>
      getRecordFromKnownRecords record zone (prov st) = emptyRecord
  end.
Proof.
  unfold getDNSRecord, bind at 1, gets at 1.
  destruct (decide (emptyRecord
                    = getRecordFromKnownRecords record zone (prov st)))
    as [E|N].
  - unfold bind.
    destruct (getAllDomainRecords World transport t s zone st)
      as [[e|rs] st2]; [now symmetry|].
    unfold gets.
    destruct (decide (getRecordFromKnownRecords record zone (prov st2)
                      = emptyRecord)) as [E2|N2]; [now left|].
    right. now apply lookup_provider_sound.
  - unfold ret. right. apply lookup_provider_sound. congruence.
Qed.

Local Abbreviation sends_ttl := (emits World body_has_ttl).

Lemma body_has_ttl_get (c : Call) : is_get c = true -> body_has_ttl c = true.
Proof. destruct c as [T r]. now destruct r. Qed.

Lemma reqData_ttl (record : dsDNSRecord) : TTL (reqData record) <> 0%Z.
Proof.
  unfold reqData. destruct (Z.eqb_spec (TTL record) 0) as [E|N];
    [discriminate | exact N].
Qed.

Lemma sends_ttl_of_get {A} (m : M World A) :
  emits World is_get m -> sends_ttl m.
Proof. apply emits_weaken. exact body_has_ttl_get. Qed.

Lemma sends_ttl_create t s zone record :
  sends_ttl (createDNSRecord World transport t s zone record).
Proof.
  apply emits_bind; [| intros d].
  - apply sends_ttl_of_get, emits_getDomainInfo.
  - apply emits_bind; [| intros r; apply emits_ret].
    apply emits_doRequest. simpl.
    apply negb_true_iff, Z.eqb_neq, reqData_ttl.
Qed.

Lemma sends_ttl_update t s zone record :
  sends_ttl (updateDNSRecord World transport t s zone record).
Proof.
  apply emits_bind; [| intros d].
  - apply sends_ttl_of_get, emits_getDomainInfo.
  - apply emits_bind; [| intros _].
    + apply emits_doRequest. simpl.
      apply negb_true_iff, Z.eqb_neq, reqData_ttl.
    + apply sends_ttl_of_get, emits_getDNSRecord.
Qed.

Lemma sends_ttl_delete t s zone record :
  sends_ttl (deleteDNSRecord World transport t s zone record).
Proof.
  apply emits_bind; [apply sends_ttl_of_get, emits_getDomainInfo | intros d].
  apply emits_bind; [apply sends_ttl_of_get, emits_getDNSRecord | intros r].
  destruct (decide (emptyRecord = r)); [apply emits_ret|].
  apply emits_bind; [now apply emits_doRequest | intros _].
  apply emits_bind; [apply emits_modify | intros _; apply emits_ret].
Qed.

Lemma sends_ttl_op (o : op) (st : State World) :
  exists calls,
    trace (run_op World transport RR_Parse o st) = (trace st ++ calls)%list
    /\ forallb body_has_ttl calls = true.
Proof.
  destruct o as [zone|zone records|zone records|zone records]; simpl.
  - apply (emits_bind World body_has_ttl); [| intros rs; apply emits_lift].
    apply emits_with_credentials. intros t s.
    apply sends_ttl_of_get, emits_getAllDomainRecords.
  - revert st. change (sends_ttl (AppendRecords World transport RR_Parse
                                   zone records)).
    induction records as [|r rs IH]; [apply emits_ret|]. simpl.
    apply emits_bind; [apply emits_lift | intros d].
    apply emits_bind; [| intros res].
    { apply emits_with_credentials. intros t s. apply sends_ttl_create. }
    apply emits_bind; [apply emits_lift | intros l].
    apply emits_bind; [exact IH | intros c; apply emits_ret].
  - revert st. change (sends_ttl (DeleteRecords World transport zone records)).
    apply emits_bind; [| intros _; apply emits_ret].
    induction records as [|r rs IH]; [apply emits_ret|]. simpl.
    apply emits_bind; [apply emits_lift | intros d].
    apply emits_bind; [| intros _; exact IH].
    apply emits_with_credentials. intros t s. apply sends_ttl_delete.
  - revert st. change (sends_ttl (SetRecords World transport RR_Parse
                                   zone records)).
    apply emits_bind; [| intros l; apply emits_lift].
    induction records as [|r rs IH]; [apply emits_ret|]. simpl.
    apply emits_bind; [apply emits_lift | intros d].
    apply emits_bind; [| intros n].
    { apply emits_with_credentials. intros t s.
      unfold createOrUpdateDNSRecord.
      destruct (ID d =? 0)%Z; [apply sends_ttl_create | apply sends_ttl_update]. }
    apply emits_bind; [exact IH | intros c; apply emits_ret].
Qed.

(** X23: over any sequence of public operations the trace only grows,
    and no create or update that is sent carries a zero time-to-live:
    the 120-second default has been put in its place. *)
Theorem no_request_without_ttl (ops : list op) (st : State World) :
  exists calls : list Call,
    trace (run_ops World transport RR_Parse ops st)
    = (trace st ++ calls)%list
    /\ forallb body_has_ttl calls = true.
Proof.
  revert st. induction ops as [|o ops IH]; intros st.
  - exists []. now rewrite app_nil_r.
  - simpl. destruct (sends_ttl_op o st) as (c1 & H1 & Q1).
    destruct (IH (run_op World transport RR_Parse o st)) as (c2 & H2 & Q2).
    exists (c1 ++ c2)%list. split.
    + now rewrite H2, H1, app_assoc.
    + rewrite forallb_app. now rewrite Q1, Q2.
Qed.

End Resolution.

(** * The update path *)

Section UpdatePath.

Variable World : Type.
Variable transport :
  forall T, string -> string -> Request T -> World -> result T * World.



End UpdatePath.

